(** * kortschak/mnist: the retrieval, verification and decoding pipeline

    A shallow embedding of [mnist.go]: the cache check and the download of
    [init], the IDX decoders [Set.readImages] and [Set.readLabels],
    [Set.read] and the accessor [Set.Index], with the parts of the Go
    standard library they lean on ([io.ReadFull], [io.Copy],
    [encoding/binary.Read], [fmt.Sprintf "%x"], [crypto/md5]).

    Conventions.
    - Go's [int32] is a [Z] kept in [-2^31, 2^31) by [Int32.wrap]; Go's [int]
      is the 64-bit [int] of amd64 and arm64, a [Z] kept in range by
      [Int.wrap].
    - A [[]byte] is a [list byte]; a slice field that may still be [nil] is an
      [option (list byte)].
    - A call that may panic has a result of type [go]; a method with a
      pointer receiver returns the receiver's new value as well, also when
      it fails, since the source writes through the pointer before it
      returns. *)

From Stdlib Require Import ZArith List String Ascii Bool Lia.
From Stdlib.Strings Require Import Byte.
Import ListNotations.
Open Scope Z_scope.

(** ** Machine integers *)

Module Int32.
Definition min : Z := - 2 ^ 31.
Definition max : Z := 2 ^ 31 - 1.

(** Two's-complement reduction of an integer to [int32]. *)
Definition wrap (z : Z) : Z := (z + 2 ^ 31) mod 2 ^ 32 - 2 ^ 31.

Definition in_range (z : Z) : Prop := min <= z <= max.

(** [a * b] on [int32] operands. *)
Definition mul (a b : Z) : Z := wrap (a * b).
End Int32.

Module Int.
(** Go's [int] on a 64-bit platform. *)
Definition wrap (z : Z) : Z := (z + 2 ^ 63) mod 2 ^ 64 - 2 ^ 63.
Definition add (a b : Z) : Z := wrap (a + b).
Definition mul (a b : Z) : Z := wrap (a * b).
End Int.

(** ** Bytes *)

Definition byte_val (b : byte) : Z := Z.of_N (Byte.to_N b).

Definition byte_of_Z (z : Z) : byte :=
  match Byte.of_N (Z.to_N (z mod 256)) with
  | Some b => b
  | None => x00
  end.

(** [binary.BigEndian.Uint32]. *)
Definition be_uint32 (b0 b1 b2 b3 : byte) : Z :=
  Z.lor (Z.lor (Z.lor (Z.shiftl (byte_val b0) 24) (Z.shiftl (byte_val b1) 16))
               (Z.shiftl (byte_val b2) 8))
        (byte_val b3).

(** [make([]byte, n)] for [0 <= n]: [n] zero bytes. *)
Definition zeros (n : nat) : list byte := repeat x00 n.

(** ** fmt.Sprintf with the verb %x *)

Module Fmt.
Definition hex_digit (n : Z) : ascii :=
  ascii_of_nat (Z.to_nat (if n <? 10 then 48 + n else 87 + n)).

(** Lower-case hexadecimal digits of [n >= 0], most significant first,
    without leading zeros; [fuel] bounds the number of digits. *)
Fixpoint hex_nat (fuel : nat) (n : Z) (acc : string) : string :=
  match fuel with
  | O => acc
  | S fuel' =>
      let acc' := String (hex_digit (n mod 16)) acc in
      if n / 16 =? 0 then acc' else hex_nat fuel' (n / 16) acc'
  end.

(** [fmt.Sprintf("%x", v)] for an [int32] [v]: a minus sign and the
    magnitude for a negative value. *)
Definition sprintf_x_int32 (v : Z) : string :=
  if v <? 0 then String "-"%char (hex_nat 8 (- v) EmptyString)
  else hex_nat 8 v EmptyString.

(** [fmt.Sprintf("%x", s)] for a byte slice [s]: two lower-case digits per
    byte. *)
Fixpoint sprintf_x_bytes (s : list byte) : string :=
  match s with
  | [] => EmptyString
  | b :: s' =>
      String (hex_digit (byte_val b / 16))
        (String (hex_digit (byte_val b mod 16)) (sprintf_x_bytes s'))
  end.

(** ASCII lower-casing, for comparing hex strings without regard to case. *)
Definition lower_ascii (c : ascii) : ascii :=
  let n := nat_of_ascii c in
  if andb (Nat.leb 65 n) (Nat.leb n 90) then ascii_of_nat (n + 32) else c.

Fixpoint to_lower (s : string) : string :=
  match s with
  | EmptyString => EmptyString
  | String c s' => String (lower_ascii c) (to_lower s')
  end.

(** Equality of two strings up to the case of their letters. *)
Definition eq_fold (a b : string) : bool := String.eqb (to_lower a) (to_lower b).
End Fmt.

(** ** crypto/md5

    The digest of the Go standard library, which is RFC 1321. *)

Module MD5.
Definition mask : Z := 2 ^ 32 - 1.
Definition add32 (a b : Z) : Z := (a + b) mod 2 ^ 32.
Definition not32 (a : Z) : Z := Z.lxor a mask.
Definition rotl (x : Z) (c : Z) : Z :=
  Z.lor (Z.land (Z.shiftl x c) mask) (Z.shiftr x (32 - c)).

Definition shifts : list Z :=
  [7; 12; 17; 22; 7; 12; 17; 22; 7; 12; 17; 22; 7; 12; 17; 22;
   5; 9; 14; 20; 5; 9; 14; 20; 5; 9; 14; 20; 5; 9; 14; 20;
   4; 11; 16; 23; 4; 11; 16; 23; 4; 11; 16; 23; 4; 11; 16; 23;
   6; 10; 15; 21; 6; 10; 15; 21; 6; 10; 15; 21; 6; 10; 15; 21].

Definition table : list Z :=
  [0xd76aa478; 0xe8c7b756; 0x242070db; 0xc1bdceee;
   0xf57c0faf; 0x4787c62a; 0xa8304613; 0xfd469501;
   0x698098d8; 0x8b44f7af; 0xffff5bb1; 0x895cd7be;
   0x6b901122; 0xfd987193; 0xa679438e; 0x49b40821;
   0xf61e2562; 0xc040b340; 0x265e5a51; 0xe9b6c7aa;
   0xd62f105d; 0x02441453; 0xd8a1e681; 0xe7d3fbc8;
   0x21e1cde6; 0xc33707d6; 0xf4d50d87; 0x455a14ed;
   0xa9e3e905; 0xfcefa3f8; 0x676f02d9; 0x8d2a4c8a;
   0xfffa3942; 0x8771f681; 0x6d9d6122; 0xfde5380c;
   0xa4beea44; 0x4bdecfa9; 0xf6bb4b60; 0xbebfbc70;
   0x289b7ec6; 0xeaa127fa; 0xd4ef3085; 0x04881d05;
   0xd9d4d039; 0xe6db99e5; 0x1fa27cf8; 0xc4ac5665;
   0xf4292244; 0x432aff97; 0xab9423a7; 0xfc93a039;
   0x655b59c3; 0x8f0ccc92; 0xffeff47d; 0x85845dd1;
   0x6fa87e4f; 0xfe2ce6e0; 0xa3014314; 0x4e0811a1;
   0xf7537e82; 0xbd3af235; 0x2ad7d2bb; 0xeb86d391].

Record state := mkState { sa : Z; sb : Z; sc : Z; sd : Z }.

Definition init : state :=
  mkState 0x67452301 0xefcdab89 0x98badcfe 0x10325476.

Definition le_uint32 (b0 b1 b2 b3 : byte) : Z :=
  byte_val b0 + 2 ^ 8 * byte_val b1 + 2 ^ 16 * byte_val b2 + 2 ^ 24 * byte_val b3.

(** The little-endian 32-bit words of a block. *)
Fixpoint words (bs : list byte) : list Z :=
  match bs with
  | b0 :: b1 :: b2 :: b3 :: bs' => le_uint32 b0 b1 b2 b3 :: words bs'
  | _ => []
  end.

Definition le_bytes32 (w : Z) : list byte :=
  [byte_of_Z w; byte_of_Z (Z.shiftr w 8); byte_of_Z (Z.shiftr w 16);
   byte_of_Z (Z.shiftr w 24)].

(** One of the 64 steps of the block function. *)
Definition step (m : list Z) (st : state) (i : nat) : state :=
  let '(mkState a b c d) := st in
  let iz := Z.of_nat i in
  let '(f, g) :=
    if iz <? 16 then (Z.lor (Z.land b c) (Z.land (not32 b) d), iz)
    else if iz <? 32 then
      (Z.lor (Z.land d b) (Z.land (not32 d) c), (5 * iz + 1) mod 16)
    else if iz <? 48 then (Z.lxor (Z.lxor b c) d, (3 * iz + 5) mod 16)
    else (Z.lxor c (Z.lor b (not32 d)), (7 * iz) mod 16) in
  let f' := add32 (add32 (add32 f a) (nth i table 0)) (nth (Z.to_nat g) m 0) in
  mkState d (add32 b (rotl f' (nth i shifts 0))) b c.

Definition block (st : state) (blk : list byte) : state :=
  let m := words blk in
  let st' := fold_left (step m) (seq 0 64) st in
  mkState (add32 (sa st) (sa st')) (add32 (sb st) (sb st'))
          (add32 (sc st) (sc st')) (add32 (sd st) (sd st')).

(** RFC 1321 padding: a 1 bit, zeros up to 56 modulo 64, then the bit
    length as a little-endian 64-bit integer. *)
Definition pad (msg : list byte) : list byte :=
  let len := Z.of_nat (List.length msg) in
  let k := Z.to_nat ((55 - len) mod 64) in
  let bits := (8 * len) mod 2 ^ 64 in
  msg ++ x80 :: zeros k
      ++ le_bytes32 (bits mod 2 ^ 32) ++ le_bytes32 (bits / 2 ^ 32).

Fixpoint blocks (fuel : nat) (st : state) (bs : list byte) : state :=
  match fuel with
  | O => st
  | S fuel' =>
      match bs with
      | [] => st
      | _ => blocks fuel' (block st (firstn 64 bs)) (skipn 64 bs)
      end
  end.

(** [md5.New()], [Write] of the whole message, [Sum(nil)]: the 16-byte
    digest. *)
Definition sum (msg : list byte) : list byte :=
  let p := pad msg in
  let st := blocks (S (List.length p / 64)) init p in
  le_bytes32 (sa st) ++ le_bytes32 (sb st) ++ le_bytes32 (sc st)
    ++ le_bytes32 (sd st).
End MD5.

(** ** Errors, panics, readers and writers *)

(** Go [error] values met in the pipeline. *)
Inductive error : Type :=
| EOF                      (* io.EOF *)
| ErrUnexpectedEOF         (* io.ErrUnexpectedEOF *)
| Errorf (msg : string)    (* built by fmt.Errorf or errors.New in mnist.go *)
| LibErr (msg : string).   (* any other error of os, net/http or compress/gzip *)

Definition is_EOF (e : error) : bool :=
  match e with EOF => true | _ => false end.

(** Run-time panics of the Go runtime. *)
Inductive panic : Type :=
| MakesliceLen       (* makeslice: len out of range *)
| IndexOutOfRange    (* index out of range *)
| SliceBounds.       (* slice bounds out of range *)

(** What a call comes to: it returns, or it panics. *)
Inductive go (A : Type) : Type :=
| Return (a : A)
| Panic (p : panic).
Arguments Return {A} a.
Arguments Panic {A} p.

(** An [io.Reader] seen from its consumer: the bytes it still delivers and
    the error that follows the last of them, [EOF] for a clean end. For the
    stream of a [gzip.Reader] the bytes are the decompressed ones and [fin]
    is [EOF], or the error of a damaged or truncated compressed stream. *)
Record reader : Type := mkReader { avail : list byte; fin : error }.

(** An [io.Writer]: [room] is the number of bytes it accepts before a write
    fails with [werr]; [None] for one that never fails, as a [hash.Hash],
    whose [werr] is then of no account. *)
Record writer : Type := mkWriter { room : option nat; werr : error }.

Definition hash_writer : writer := mkWriter None EOF.

Module Io.
(** [io.ReadFull(r, buf)]: fills [buf] from [r]. Returns the reader after
    the call, the buffer after the call, the count and the error:
    nothing is read for an empty [buf]; when the stream ends early the
    error is [fin], with [EOF] turned into [ErrUnexpectedEOF] if some
    bytes were read. *)
Definition ReadFull (r : reader) (buf : list byte)
  : reader * list byte * Z * option error :=
  let n := List.length buf in
  let k := List.length (avail r) in
  if Nat.leb n k then
    (mkReader (skipn n (avail r)) (fin r), firstn n (avail r),
     Z.of_nat n, None)
  else
    (mkReader [] (fin r), avail r ++ skipn k buf, Z.of_nat k,
     Some (if andb (Nat.ltb 0 k) (is_EOF (fin r))
           then ErrUnexpectedEOF else fin r)).

(** [io.Copy(dst, src)]: copies until [src] ends or a write fails.
    Returns the bytes written, their count and the error, which is [nil]
    when [src] ended with [EOF]. *)
Definition Copy (dst : writer) (src : reader)
  : list byte * Z * option error :=
  let all := avail src in
  match room dst with
  | Some m =>
      if Nat.ltb m (List.length all) then
        (firstn m all, Z.of_nat m, Some (werr dst))
      else
        (all, Z.of_nat (List.length all),
         if is_EOF (fin src) then None else Some (fin src))
  | None =>
      (all, Z.of_nat (List.length all),
       if is_EOF (fin src) then None else Some (fin src))
  end.
End Io.

Module Binary.
(** [binary.Read(r, binary.BigEndian, &v)] for [v] an [int32]: four bytes
    by [io.ReadFull], decoded big-endian and converted to [int32]; on an
    error nothing is stored. Without an error the buffer holds four bytes,
    so the last branch is never taken. *)
Definition Read (r : reader) : reader * (error + Z) :=
  match Io.ReadFull r (zeros 4) with
  | (r', _, _, Some e) => (r', inl e)
  | (r', bs, _, None) =>
      match bs with
      | [b0; b1; b2; b3] => (r', inr (Int32.wrap (be_uint32 b0 b1 b2 b3)))
      | _ => (r', inl ErrUnexpectedEOF)
      end
  end.
End Binary.

(** ** mnist.go *)

Definition xLAB : Z := 0x00000801.
Definition xIMG : Z := 0x00000803.

(** An entry of the table [mnist]. *)
Record asset : Type := mkAsset {
  url : string;
  local : string;
  length : Z;
  md5 : string
}.

Definition mnist : list asset :=
  [ mkAsset "http://yann.lecun.com/exdb/mnist/train-images-idx3-ubyte.gz" ""
      9912422 "f68b3c2dcbeaaa9fbdd348bbdeb94873";
    mkAsset "http://yann.lecun.com/exdb/mnist/train-labels-idx1-ubyte.gz" ""
      28881 "d53e105ee54ea40749a09fcbcd1e9432";
    mkAsset "http://yann.lecun.com/exdb/mnist/t10k-images-idx3-ubyte.gz" ""
      1648877 "9fb629c4189551a2d022fa330f9573f3";
    mkAsset "http://yann.lecun.com/exdb/mnist/t10k-labels-idx1-ubyte.gz" ""
      4542 "ec29112dd5afa0611ce80d1b7f02629c" ].

(** *** The cache check and the download of [init] *)

(** A file opened for reading: what [f.Stat] answers ([None] for an error,
    else the size) and what reading [f] delivers. *)
Record rfile : Type := mkRfile { stat : option Z; content : reader }.

(** An HTTP response: [cl.Get] returns one for every status the server
    answers with; the status is carried along and never looked at. *)
Record response : Type := mkResponse { status : Z; body : reader }.

(** What one iteration of the loop of [init] meets outside the program. *)
Record world : Type := mkWorld {
  os_Open : error + rfile;       (* os.Open(mnist[i].local) *)
  cl_Get : error + response;     (* cl.Get(mnist[i].url) *)
  os_Create : error + writer     (* os.Create(mnist[i].local) *)
}.

(** How the process stops in [init]: [isNil] on a non-nil error
    ([Logger.Fatal], or a panic without a [Logger]), or the length check
    ([Logger.Fatalf], or [os.Exit(1)] without a [Logger]). *)
Inductive halt : Type :=
| FatalErr (e : error)
| FatalLength (n want : Z).

(** The cache check, lines 140 to 153. *)
Inductive verdict : Type :=
| Valid              (* [continue]: the file is kept *)
| Invalid            (* falls through to the download *)
| Stop (h : halt).

Definition check (d : asset) (opened : error + rfile) : verdict :=
  match opened with
  | inl _ => Invalid
  | inr f =>
      match stat f with
      | Some size =>
          if size =? length d then
            let '(written, n, err) := Io.Copy hash_writer (content f) in
            match err with
            | Some e => Stop (FatalErr e)
            | None =>
                let s := MD5.sum written in
                if andb (n =? length d)
                        (String.eqb (Fmt.sprintf_x_bytes s) (md5 d))
                then Valid else Invalid
            end
          else Invalid
      | None => Invalid
      end
  end.

(** The download, lines 157 to 171: the bytes written to the local file,
    or the way the process stops. *)
Definition fetch (d : asset) (w : world) : halt + list byte :=
  match cl_Get w with
  | inl e => inl (FatalErr e)
  | inr res =>
      match os_Create w with
      | inl e => inl (FatalErr e)
      | inr f =>
          let '(written, n, err) := Io.Copy f (body res) in
          if negb (n =? length d) then inl (FatalLength n (length d))
          else match err with
               | Some e => inl (FatalErr e)
               | None => inr written
               end
      end
  end.

(** One iteration of the loop of [init]. *)
Inductive step : Type :=
| Kept                          (* the cached file passed the check *)
| Downloaded (data : list byte)
| Halted (h : halt).

Definition init_step (d : asset) (w : world) : step :=
  match check d (os_Open w) with
  | Valid => Kept
  | Stop h => Halted h
  | Invalid =>
      match fetch d w with
      | inl h => Halted h
      | inr data => Downloaded data
      end
  end.

(** *** Set *)

(** The struct [Set]. *)
Record Set_ : Type := mkSet {
  count : Z;
  rows : Z;
  cols : Z;
  matrix : option (list byte);
  labels : option (list byte)
}.

(** The zero value, as [Train] and [Test] are before [init]. *)
Definition zero_Set : Set_ := mkSet 0 0 0 None None.

(** The bytes of a slice; a [nil] slice has none. *)
Definition bytes (s : option (list byte)) : list byte :=
  match s with Some l => l | None => [] end.

Definition len (s : option (list byte)) : Z := Z.of_nat (List.length (bytes s)).

Definition Rows (s : Set_) : Z := rows s.
Definition Cols (s : Set_) : Z := cols s.
Definition Len (s : Set_) : Z := count s.

(** [s[i]] on a byte slice. *)
Definition index (s : option (list byte)) (i : Z) : go byte :=
  if andb (0 <=? i) (i <? len s)
  then Return (nth (Z.to_nat i) (bytes s) x00)
  else Panic IndexOutOfRange.

(** [s[lo:hi]] on a byte slice made by [make([]byte, n)], whose capacity is
    its length. *)
Definition slice (s : option (list byte)) (lo hi : Z) : go (list byte) :=
  if andb (andb (0 <=? lo) (lo <=? hi)) (hi <=? len s)
  then Return (firstn (Z.to_nat (hi - lo)) (skipn (Z.to_nat lo) (bytes s)))
  else Panic SliceBounds.

(** [Index] returns the i'th label and image of the data set. Both
    operands of the [return] are bounds-checked before anything is
    returned; in the compiled code the bounds of the slice of the matrix
    are checked before the label is loaded, which decides the kind of
    panic when both are out of range. *)
Definition Index (s : Set_) (i : Z) : go (byte * list byte) :=
  let stride := Int32.mul (rows s) (cols s) in
  match slice (matrix s) (Int.mul i stride)
              (Int.mul (Int.add i 1) stride) with
  | Panic p => Panic p
  | Return image =>
      match index (labels s) i with
      | Panic p => Panic p
      | Return label => Return (label, image)
      end
  end.

(** A local file as the decoders meet it: [os.Open] fails, or
    [gzip.NewReader] fails on its header, or there is a decompressed
    stream to read. *)
Inductive gzfile : Type :=
| OpenFails (e : error)
| GzipFails (e : error)
| Gzip (z : reader).

(** The fields the loop of [readImages] reads into. *)
Inductive field : Type := FCount | FRows | FCols.

Definition store (f : field) (v : Z) (s : Set_) : Set_ :=
  match f with
  | FCount => mkSet v (rows s) (cols s) (matrix s) (labels s)
  | FRows => mkSet (count s) v (cols s) (matrix s) (labels s)
  | FCols => mkSet (count s) (rows s) v (matrix s) (labels s)
  end.

(** [for _, v := range []*int32{...} { err = binary.Read(z, ..., v) ... }] *)
Fixpoint read_fields (fs : list field) (z : reader) (s : Set_)
  : Set_ * reader * option error :=
  match fs with
  | [] => (s, z, None)
  | f :: fs' =>
      match Binary.Read z with
      | (z', inl e) => (s, z', Some e)
      | (z', inr v) => read_fields fs' z' (store f v s)
      end
  end.

Definition readImages (s : Set_) (file : gzfile) : Set_ * go (option error) :=
  match file with
  | OpenFails e => (s, Return (Some e))
  | GzipFails e => (s, Return (Some e))
  | Gzip z =>
      match Binary.Read z with
      | (_, inl e) => (s, Return (Some e))
      | (z1, inr magic) =>
          if negb (magic =? xIMG) then
            (s, Return (Some (Errorf
               ("invalid magic number for images: "
                  ++ Fmt.sprintf_x_int32 magic))))
          else
            match read_fields [FCount; FRows; FCols] z1 s with
            | (s1, _, Some e) => (s1, Return (Some e))
            | (s1, z2, None) =>
                let n := Int32.mul (Int32.mul (count s1) (rows s1)) (cols s1) in
                if n <? 0 then (s1, Panic MakesliceLen)
                else
                  let '(_, buf, _, err) :=
                    Io.ReadFull z2 (zeros (Z.to_nat n)) in
                  (mkSet (count s1) (rows s1) (cols s1) (Some buf) (labels s1),
                   Return err)
            end
      end
  end.

Definition readLabels (s : Set_) (file : gzfile) : Set_ * go (option error) :=
  match file with
  | OpenFails e => (s, Return (Some e))
  | GzipFails e => (s, Return (Some e))
  | Gzip z =>
      match Binary.Read z with
      | (_, inl e) => (s, Return (Some e))
      | (z1, inr magic) =>
          if negb (magic =? xLAB) then
            (s, Return (Some (Errorf
               ("invalid magic number for labels: "
                  ++ Fmt.sprintf_x_int32 magic))))
          else
            match Binary.Read z1 with
            | (_, inl e) => (s, Return (Some e))
            | (z2, inr cnt) =>
                if negb (cnt =? count s) then
                  (s, Return (Some (Errorf
                     "mismatched number of labels and images")))
                else if count s <? 0 then (s, Panic MakesliceLen)
                else
                  let '(_, buf, _, err) :=
                    Io.ReadFull z2 (zeros (Z.to_nat (count s))) in
                  (mkSet (count s) (rows s) (cols s) (matrix s) (Some buf),
                   Return err)
            end
      end
  end.

Definition read (s : Set_) (images labels : gzfile) : Set_ * go (option error) :=
  match readImages s images with
  | (s1, Return None) => readLabels s1 labels
  | (s1, r) => (s1, r)
  end.

(** *** IDX streams

    Vocabulary for stating properties of the decoders: four bytes of a
    stream and the [int32] that [binary.Read] decodes from them, and the
    streams that begin with a complete header. *)

Inductive quad : Type := Quad (b0 b1 b2 b3 : byte).

Definition quad_bytes (q : quad) : list byte :=
  let '(Quad b0 b1 b2 b3) := q in [b0; b1; b2; b3].

Definition quad_int32 (q : quad) : Z :=
  let '(Quad b0 b1 b2 b3) := q in Int32.wrap (be_uint32 b0 b1 b2 b3).

(** A stream that starts with the quad [magic]. *)
Definition magic_stream (magic : quad) (rest : list byte) (e : error) : reader :=
  mkReader (quad_bytes magic ++ rest) e.

(** An image stream: the magic number of images, then count, rows and
    cols, then [payload], ended by [e]. *)
Definition image_stream (qcount qrows qcols : quad) (payload : list byte)
    (e : error) : reader :=
  mkReader ([x00; x00; x08; x03] ++ quad_bytes qcount ++ quad_bytes qrows
              ++ quad_bytes qcols ++ payload) e.

(** A label stream: the magic number of labels, then count, then
    [payload], ended by [e]. *)
Definition label_stream (qcount : quad) (payload : list byte) (e : error)
  : reader :=
  mkReader ([x00; x00; x08; x01] ++ quad_bytes qcount ++ payload) e.

(** The error [io.ReadFull] reports when the stream ends, with [e], after
    [got] bytes of a longer buffer. *)
Definition short_read (got : list byte) (e : error) : error :=
  if andb (Nat.ltb 0 (List.length got)) (is_EOF e) then ErrUnexpectedEOF else e.

(** The image views [Index] hands out for the indices 0 to [Len s - 1],
    in order; an index on which [Index] panics contributes nothing. *)
Definition image_at (s : Set_) (i : Z) : list byte :=
  match Index s i with
  | Return (_, image) => image
  | Panic _ => []
  end.

Definition images_of (s : Set_) : list (list byte) :=
  map (fun i => image_at s (Z.of_nat i)) (seq 0 (Z.to_nat (Len s))).

(** *** The words of the specification

    Section 4.2 of the specification, to compare [check] with: a cached
    file is valid when it exists and can be read to its end, its length is
    the expected one, and the hex MD5 digest of its content equals the
    expected hash without regard to case; an error on the way makes it
    invalid. *)
Definition isValid_spec (d : asset) (opened : error + rfile) : bool :=
  match opened with
  | inl _ => false
  | inr f =>
      match stat f with
      | None => false
      | Some size =>
          let data := avail (content f) in
          (size =? length d)
          && is_EOF (fin (content f))
          && (Z.of_nat (List.length data) =? length d)
          && Fmt.eq_fold (Fmt.sprintf_x_bytes (MD5.sum data)) (md5 d)
      end
  end.

(** Section 4.3 counts a non-success status among the failures of the
    request; [http.Client.Get] does not. *)
Definition success_status (st : Z) : bool := (200 <=? st) && (st <? 300).

Definition request_failed_spec (w : world) : bool :=
  match cl_Get w with
  | inl _ => true
  | inr res => negb (success_status (status res))
  end.

(** [mnist[i]]. *)
Definition asset_at (i : nat) : asset := nth i mnist (mkAsset "" "" 0 "").

(** *** [init] as a whole

    What [init] meets outside the program: whether [runtime.Caller(0)]
    reports the location of the source file, the world of each iteration
    of the loop over [mnist], and the four local files as the decoders
    find them once the loop is over. [url.Parse] succeeds on the four
    constant URLs of the table, so its [isNil] never fires; the lines
    written to [Logger] are left out. *)
Record environment : Type := mkEnv {
  caller_ok : bool;
  worlds : nat -> world;
  local_gz : nat -> gzfile
}.

(** The loop [for i := range mnist], from the entry [i] on: the first
    iteration that stops the process ends it. *)
Fixpoint init_loop (ws : nat -> world) (i : nat) (ds : list asset)
  : option halt :=
  match ds with
  | [] => None
  | d :: ds' =>
      match init_step d (ws i) with
      | Halted h => Some h
      | Kept | Downloaded _ => init_loop ws (S i) ds'
      end
  end.

(** How [init] ends, with the values of [Train] and [Test] at that point:
    [os.Exit(1)] for want of the file location, a stop in the loop or in
    [isNil] after a [read], a panic inside a [read], or its return. *)
Inductive init_result : Type :=
| NoLocation
| Stopped (h : halt) (train test : Set_)
| Panicked (p : panic) (train test : Set_)
| Ready (train test : Set_).

Definition init (env : environment) : init_result :=
  if negb (caller_ok env) then NoLocation
  else
    match init_loop (worlds env) 0 mnist with
    | Some h => Stopped h zero_Set zero_Set
    | None =>
        match read zero_Set (local_gz env 0%nat) (local_gz env 1%nat) with
        | (train, Panic p) => Panicked p train zero_Set
        | (train, Return (Some e)) => Stopped (FatalErr e) train zero_Set
        | (train, Return None) =>
            match read zero_Set (local_gz env 2%nat) (local_gz env 3%nat) with
            | (test, Panic p) => Panicked p train test
            | (test, Return (Some e)) => Stopped (FatalErr e) train test
            | (test, Return None) => Ready train test
            end
        end
    end.

(** A file as it is on the disk once [data] has been written to it and it
    has been closed: [Stat] reports the length of [data] and reading
    delivers [data] to a clean end. *)
Definition regular_file (data : list byte) : rfile :=
  mkRfile (Some (Z.of_nat (List.length data))) (mkReader data EOF).

(** The error of a [binary.Read] loop on a stream that ends, with [e],
    before the loop is through: [e] itself when the stream ends between
    two integers, and [io.ErrUnexpectedEOF] in place of [io.EOF] when it
    ends inside one. *)
Definition cut_error (av : list byte) (e : error) : error :=
  if andb (Nat.ltb 0 (List.length av mod 4)) (is_EOF e)
  then ErrUnexpectedEOF else e.

(** A world for a first start: no local file yet, a server that answers
    200 with a body of the expected length, and a disk that takes it. *)
Definition download_world (d : asset) : world :=
  mkWorld (inl (LibErr "no such file or directory"))
    (inr (mkResponse 200 (mkReader (zeros (Z.to_nat (length d))) EOF)))
    (inr (mkWriter None EOF)).

(** The four local files of a small data set: two images of one pixel
    with the labels 5 and 9 for training, one image with the label 7 for
    the test. *)
Definition small_gz (i : nat) : gzfile :=
  match i with
  | 0%nat => Gzip (image_stream (Quad x00 x00 x00 x02) (Quad x00 x00 x00 x01)
                     (Quad x00 x00 x00 x01) [x10; x20] EOF)
  | 1%nat => Gzip (label_stream (Quad x00 x00 x00 x02) [x05; x09] EOF)
  | 2%nat => Gzip (image_stream (Quad x00 x00 x00 x01) (Quad x00 x00 x00 x01)
                     (Quad x00 x00 x00 x01) [x30] EOF)
  | _ => Gzip (label_stream (Quad x00 x00 x00 x01) [x07] EOF)
  end.

(** The first four bytes of a stream, if it has as many. *)
Definition first_quad (av : list byte) : option quad :=
  match av with
  | b0 :: b1 :: b2 :: b3 :: _ => Some (Quad b0 b1 b2 b3)
  | _ => None
  end.

(** * Properties *)

(** ** Machine integers *)

Lemma wrap32_range (z : Z) : Int32.min <= Int32.wrap z <= Int32.max.
Proof.
  unfold Int32.wrap, Int32.min, Int32.max.
  pose proof (Z.mod_pos_bound (z + 2 ^ 31) (2 ^ 32) ltac:(lia)). lia.
Qed.

Lemma wrap32_id (z : Z) : Int32.min <= z <= Int32.max -> Int32.wrap z = z.
Proof.
  unfold Int32.wrap, Int32.min, Int32.max. intros H.
  rewrite Z.mod_small by lia. lia.
Qed.

Lemma wrap32_congr (z : Z) : (Int32.wrap z - z) mod 2 ^ 32 = 0.
Proof.
  unfold Int32.wrap.
  rewrite (Z.mod_eq (z + 2 ^ 31) (2 ^ 32)) by lia.
  replace (z + 2 ^ 31 - 2 ^ 32 * ((z + 2 ^ 31) / 2 ^ 32) - 2 ^ 31 - z)
    with ((- ((z + 2 ^ 31) / 2 ^ 32)) * 2 ^ 32) by ring.
  apply Z.mod_mul. lia.
Qed.

Lemma wrap32_mul_l (a b : Z) : Int32.wrap (Int32.wrap a * b) = Int32.wrap (a * b).
Proof.
  unfold Int32.wrap at 1 3. f_equal.
  unfold Int32.wrap.
  rewrite (Z.mod_eq (a + 2 ^ 31) (2 ^ 32)) by lia.
  replace ((a + 2 ^ 31 - 2 ^ 32 * ((a + 2 ^ 31) / 2 ^ 32) - 2 ^ 31) * b + 2 ^ 31)
    with (a * b + 2 ^ 31 + (- ((a + 2 ^ 31) / 2 ^ 32) * b) * 2 ^ 32) by ring.
  apply Z.mod_add. lia.
Qed.

(** The size computed by [readImages] is the product of the three header
    fields reduced to [int32]. *)
Lemma mul32_3 (a b c : Z) :
  Int32.mul (Int32.mul a b) c = Int32.wrap (a * b * c).
Proof. unfold Int32.mul. apply wrap32_mul_l. Qed.

Lemma wrap64_id (z : Z) : - 2 ^ 63 <= z < 2 ^ 63 -> Int.wrap z = z.
Proof.
  unfold Int.wrap. intros H. rewrite Z.mod_small by lia. lia.
Qed.

(** ** Bytes and formatting *)

Lemma byte_val_range (b : byte) : 0 <= byte_val b <= 255.
Proof.
  unfold byte_val. pose proof (Byte.to_N_bounded b). lia.
Qed.

Lemma length_zeros (n : nat) : List.length (zeros n) = n.
Proof. apply repeat_length. Qed.

(** The digits [Sprintf] writes for a byte slice are already lower case. *)
Lemma to_lower_sprintf_x_bytes (s : list byte) :
  Fmt.to_lower (Fmt.sprintf_x_bytes s) = Fmt.sprintf_x_bytes s.
Proof.
  induction s as [|b s IH]; [reflexivity|].
  cbn [Fmt.sprintf_x_bytes Fmt.to_lower]. rewrite IH.
  f_equal; [|f_equal]; destruct b; reflexivity.
Qed.

(** The digest on two test vectors of RFC 1321. *)
Example md5_empty :
  Fmt.sprintf_x_bytes (MD5.sum []) = "d41d8cd98f00b204e9800998ecf8427e"%string.
Proof. vm_compute. reflexivity. Qed.

Example md5_abc :
  Fmt.sprintf_x_bytes (MD5.sum [x61; x62; x63])
    = "900150983cd24fb0d6963f7d28e17f72"%string.
Proof. vm_compute. reflexivity. Qed.

Example sprintf_x_negative : Fmt.sprintf_x_int32 (-1) = "-1"%string.
Proof. reflexivity. Qed.

Example sprintf_x_xLAB : Fmt.sprintf_x_int32 xLAB = "801"%string.
Proof. reflexivity. Qed.

(** ** Readers *)

Lemma ReadFull_enough (r : reader) (buf : list byte) :
  (List.length buf <= List.length (avail r))%nat ->
  Io.ReadFull r buf =
    (mkReader (skipn (List.length buf) (avail r)) (fin r),
     firstn (List.length buf) (avail r), Z.of_nat (List.length buf), None).
Proof.
  intros H. unfold Io.ReadFull.
  destruct (Nat.leb_spec (List.length buf) (List.length (avail r))); [reflexivity|lia].
Qed.

Lemma ReadFull_short (r : reader) (buf : list byte) :
  (List.length (avail r) < List.length buf)%nat ->
  Io.ReadFull r buf =
    (mkReader [] (fin r), avail r ++ skipn (List.length (avail r)) buf,
     Z.of_nat (List.length (avail r)),
     Some (if andb (Nat.ltb 0 (List.length (avail r))) (is_EOF (fin r))
           then ErrUnexpectedEOF else fin r)).
Proof.
  intros H. unfold Io.ReadFull.
  destruct (Nat.leb_spec (List.length buf) (List.length (avail r))); [lia|reflexivity].
Qed.

(** [io.ReadFull] never changes the length of the buffer it fills. *)
Lemma ReadFull_length (r : reader) (buf : list byte) :
  let '(_, buf', _, _) := Io.ReadFull r buf in
  List.length buf' = List.length buf.
Proof.
  unfold Io.ReadFull.
  destruct (Nat.leb_spec (List.length buf) (List.length (avail r))).
  - rewrite length_firstn. lia.
  - rewrite length_app, length_skipn. lia.
Qed.

(** [io.ReadFull] reports no error exactly when the stream still holds as
    many bytes as the buffer. *)
Lemma ReadFull_ok_iff (r : reader) (buf : list byte) :
  snd (Io.ReadFull r buf) = None <->
  (List.length buf <= List.length (avail r))%nat.
Proof.
  unfold Io.ReadFull.
  destruct (Nat.leb_spec (List.length buf) (List.length (avail r))); cbn.
  - tauto.
  - split; [discriminate|lia].
Qed.

(** A successful [binary.Read] consumed four bytes and stored an [int32]. *)
Lemma Read_ok_inv (z z' : reader) (v : Z) :
  Binary.Read z = (z', inr v) ->
  exists b0 b1 b2 b3,
    avail z = b0 :: b1 :: b2 :: b3 :: avail z' /\ fin z' = fin z /\
    v = Int32.wrap (be_uint32 b0 b1 b2 b3).
Proof.
  destruct z as [av e]. unfold Binary.Read, Io.ReadFull. cbn [avail fin zeros repeat List.length].
  destruct av as [|b0 [|b1 [|b2 [|b3 rest]]]]; cbn; try discriminate.
  intros H. inversion H; subst. exists b0, b1, b2, b3. cbn. auto.
Qed.

Lemma Read_ok_range (z z' : reader) (v : Z) :
  Binary.Read z = (z', inr v) -> Int32.min <= v <= Int32.max.
Proof.
  intros H. apply Read_ok_inv in H as (b0 & b1 & b2 & b3 & _ & _ & ->).
  apply wrap32_range.
Qed.

(** ** The decoders on a stream with a complete header *)

Lemma Read_quad (q : quad) (rest : list byte) (e : error) :
  Binary.Read (mkReader (quad_bytes q ++ rest) e) =
    (mkReader rest e, inr (quad_int32 q)).
Proof. destruct q. reflexivity. Qed.

Lemma readImages_magic (s : Set_) (q : quad) (rest : list byte) (e : error) :
  quad_int32 q <> xIMG ->
  readImages s (Gzip (magic_stream q rest e)) =
    (s, Return (Some (Errorf ("invalid magic number for images: "
                                ++ Fmt.sprintf_x_int32 (quad_int32 q))))).
Proof.
  intros H. unfold readImages, magic_stream. rewrite Read_quad.
  destruct (Z.eqb_spec (quad_int32 q) xIMG); [contradiction|reflexivity].
Qed.

Lemma readLabels_magic (s : Set_) (q : quad) (rest : list byte) (e : error) :
  quad_int32 q <> xLAB ->
  readLabels s (Gzip (magic_stream q rest e)) =
    (s, Return (Some (Errorf ("invalid magic number for labels: "
                                ++ Fmt.sprintf_x_int32 (quad_int32 q))))).
Proof.
  intros H. unfold readLabels, magic_stream. rewrite Read_quad.
  destruct (Z.eqb_spec (quad_int32 q) xLAB); [contradiction|reflexivity].
Qed.

(** [readImages] past the header: the three fields are stored, the buffer
    is sized by their [int32] product, and the payload is read into it. *)
Lemma readImages_header (s : Set_) (qc qr qk : quad) (payload : list byte)
    (e : error) :
  readImages s (Gzip (image_stream qc qr qk payload e)) =
    let c := quad_int32 qc in
    let r := quad_int32 qr in
    let k := quad_int32 qk in
    let n := Int32.wrap (c * r * k) in
    if n <? 0 then (mkSet c r k (matrix s) (labels s), Panic MakesliceLen)
    else
      let '(_, buf, _, err) :=
        Io.ReadFull (mkReader payload e) (zeros (Z.to_nat n)) in
      (mkSet c r k (Some buf) (labels s), Return err).
Proof.
  unfold readImages, image_stream.
  change ([x00; x00; x08; x03] ++ ?l) with (quad_bytes (Quad x00 x00 x08 x03) ++ l).
  rewrite Read_quad.
  change (quad_int32 (Quad x00 x00 x08 x03)) with xIMG.
  rewrite Z.eqb_refl. cbn [negb read_fields].
  rewrite !Read_quad. cbn [store count rows cols matrix labels].
  rewrite mul32_3. reflexivity.
Qed.

(** [readLabels] past the header. *)
Lemma readLabels_header (s : Set_) (qc : quad) (payload : list byte)
    (e : error) :
  readLabels s (Gzip (label_stream qc payload e)) =
    if negb (quad_int32 qc =? count s) then
      (s, Return (Some (Errorf "mismatched number of labels and images")))
    else if count s <? 0 then (s, Panic MakesliceLen)
    else
      let '(_, buf, _, err) :=
        Io.ReadFull (mkReader payload e) (zeros (Z.to_nat (count s))) in
      (mkSet (count s) (rows s) (cols s) (matrix s) (Some buf), Return err).
Proof.
  unfold readLabels, label_stream.
  change ([x00; x00; x08; x01] ++ ?l) with (quad_bytes (Quad x00 x00 x08 x01) ++ l).
  rewrite Read_quad.
  change (quad_int32 (Quad x00 x00 x08 x01)) with xLAB.
  rewrite Z.eqb_refl. cbn [negb].
  rewrite Read_quad. reflexivity.
Qed.

Lemma skipn_zeros (k n : nat) : skipn k (zeros n) = zeros (n - k).
Proof.
  unfold zeros. revert k. induction n as [|n IH]; intros [|k]; cbn; auto.
Qed.

(** [io.ReadFull] into a fresh buffer of [n] zero bytes, in one equation. *)
Lemma ReadFull_zeros (payload : list byte) (e : error) (n : nat) :
  Io.ReadFull (mkReader payload e) (zeros n) =
    if Nat.leb n (List.length payload) then
      (mkReader (skipn n payload) e, firstn n payload, Z.of_nat n, None)
    else
      (mkReader [] e, payload ++ zeros (n - List.length payload),
       Z.of_nat (List.length payload), Some (short_read payload e)).
Proof.
  unfold Io.ReadFull, short_read. cbn [avail fin].
  rewrite length_zeros, skipn_zeros. reflexivity.
Qed.

(** ** C4: the magic numbers *)

(** C4. Whenever the first big-endian 32-bit integer of the decompressed
    stream is not 0x00000803, [readImages] returns the error made by
    [fmt.Errorf] that names the integer in hexadecimal and leaves the Set
    as it was; [readLabels] does the same for 0x00000801. In particular a
    label stream given to [readImages] and an image stream given to
    [readLabels] are rejected this way, whatever follows the magic number. *)
Theorem magic_mismatch_rejected
    (s : Set_) (qi ql : quad) (resti restl : list byte) (ei el : error)
    (qc qr qk : quad) (payload : list byte) (e : error) :
  quad_int32 qi <> xIMG ->
  quad_int32 ql <> xLAB ->
  readImages s (Gzip (magic_stream qi resti ei)) =
    (s, Return (Some (Errorf ("invalid magic number for images: "
                                ++ Fmt.sprintf_x_int32 (quad_int32 qi)))))
  /\ readLabels s (Gzip (magic_stream ql restl el)) =
    (s, Return (Some (Errorf ("invalid magic number for labels: "
                                ++ Fmt.sprintf_x_int32 (quad_int32 ql)))))
  /\ readImages s (Gzip (label_stream qc payload e)) =
    (s, Return (Some (Errorf "invalid magic number for images: 801")))
  /\ readLabels s (Gzip (image_stream qc qr qk payload e)) =
    (s, Return (Some (Errorf "invalid magic number for labels: 803"))).
Proof.
  intros Hi Hl. split; [|split; [|split]].
  - now apply readImages_magic.
  - now apply readLabels_magic.
  - change (label_stream qc payload e)
      with (magic_stream (Quad x00 x00 x08 x01) (quad_bytes qc ++ payload) e).
    rewrite readImages_magic; [reflexivity|discriminate].
  - change (image_stream qc qr qk payload e)
      with (magic_stream (Quad x00 x00 x08 x03)
              (quad_bytes qc ++ quad_bytes qr ++ quad_bytes qk ++ payload) e).
    rewrite readLabels_magic; [reflexivity|discriminate].
Qed.

(** A stream that starts with ff ff ff ff is refused by both decoders, and
    the message names the value as Go prints a negative [int32]. *)
Lemma magic_mismatch_rejected_witness :
  readImages zero_Set (Gzip (magic_stream (Quad xff xff xff xff) [] EOF)) =
    (zero_Set, Return (Some (Errorf "invalid magic number for images: -1")))
  /\ readLabels zero_Set (Gzip (magic_stream (Quad x00 x00 x08 x03) [x00] EOF)) =
    (zero_Set, Return (Some (Errorf "invalid magic number for labels: 803"))).
Proof.
  pose proof (magic_mismatch_rejected zero_Set (Quad xff xff xff xff)
                (Quad x00 x00 x08 x03) [] [x00] EOF EOF
                (Quad x00 x00 x00 x00) (Quad x00 x00 x00 x00)
                (Quad x00 x00 x00 x00) [] EOF) as H.
  destruct H as (Hi & Hl & _); [vm_compute; discriminate | vm_compute; discriminate |].
  split; [exact Hi | exact Hl].
Defined.

(** ** C8: the end-to-end scenario *)

(** C8. Reading the image stream 00000803 00000002 00000001 00000001 10 20
    and the label stream 00000801 00000002 05 09 into any Set succeeds and
    leaves a Set of length 2 with 1 row and 1 column, labels 5 and 9, whose
    entry 0 is (5, [0x10]) and whose entry 1 is (9, [0x20]). *)
Theorem end_to_end_scenario (s0 : Set_) (ei el : error) :
  let images :=
    Gzip (mkReader [x00; x00; x08; x03; x00; x00; x00; x02; x00; x00; x00; x01;
                    x00; x00; x00; x01; x10; x20] ei) in
  let lbls :=
    Gzip (mkReader [x00; x00; x08; x01; x00; x00; x00; x02; x05; x09] el) in
  let s := fst (read s0 images lbls) in
  snd (read s0 images lbls) = Return None
  /\ Len s = 2 /\ Rows s = 1 /\ Cols s = 1
  /\ labels s = Some [x05; x09]
  /\ matrix s = Some [x10; x20]
  /\ Index s 0 = Return (x05, [x10])
  /\ Index s 1 = Return (x09, [x20]).
Proof.
  destruct s0. cbv. repeat split.
Qed.

(** ** C3: the pixel payload *)

(** [readImages] on a stream with a complete header, in one equation. *)
Lemma readImages_stream (s : Set_) (qc qr qk : quad) (payload : list byte)
    (e : error) :
  let c := quad_int32 qc in
  let r := quad_int32 qr in
  let k := quad_int32 qk in
  let n := Int32.wrap (c * r * k) in
  readImages s (Gzip (image_stream qc qr qk payload e)) =
    if n <? 0 then (mkSet c r k (matrix s) (labels s), Panic MakesliceLen)
    else if n <=? Z.of_nat (List.length payload) then
      (mkSet c r k (Some (firstn (Z.to_nat n) payload)) (labels s), Return None)
    else
      (mkSet c r k
         (Some (payload ++ zeros (Z.to_nat n - List.length payload))) (labels s),
       Return (Some (short_read payload e))).
Proof.
  intros c r k n. rewrite readImages_header. cbv zeta. fold c r k. fold n.
  destruct (Z.ltb_spec n 0) as [Hn|Hn]; [reflexivity|].
  rewrite ReadFull_zeros.
  destruct (Z.leb_spec n (Z.of_nat (List.length payload))) as [Hp|Hp].
  - destruct (Nat.leb_spec (Z.to_nat n) (List.length payload)); [reflexivity|lia].
  - destruct (Nat.leb_spec (Z.to_nat n) (List.length payload)); [lia|reflexivity].
Qed.

(** C3, as the code has it. On a stream whose header is complete,
    [readImages] stores count, rows and cols and sizes the buffer by their
    product n in [int32] arithmetic. If n is negative the allocation
    panics. Otherwise, if the stream holds at least n more bytes, the call
    succeeds with exactly the first n of them as the pixels, whatever
    follows them; if it holds fewer, the call fails with the error of the
    short read ([io.EOF] when no payload byte is there, else
    [io.ErrUnexpectedEOF], or the error that ended the stream), and the
    buffer keeps the bytes read, followed by zeros. *)
Theorem readImages_payload (s : Set_) (qc qr qk : quad) (payload : list byte)
    (e : error) :
  let c := quad_int32 qc in
  let r := quad_int32 qr in
  let k := quad_int32 qk in
  let n := Int32.wrap (c * r * k) in
  readImages s (Gzip (image_stream qc qr qk payload e)) =
    if n <? 0 then (mkSet c r k (matrix s) (labels s), Panic MakesliceLen)
    else if n <=? Z.of_nat (List.length payload) then
      (mkSet c r k (Some (firstn (Z.to_nat n) payload)) (labels s), Return None)
    else
      (mkSet c r k
         (Some (payload ++ zeros (Z.to_nat n - List.length payload))) (labels s),
       Return (Some (short_read payload e))).
Proof. exact (readImages_stream s qc qr qk payload e). Qed.

(** Two headers on which it goes otherwise: with count = -1 and
    rows = cols = 1 the call panics, returning neither pixels nor a
    truncation error; with count = rows = 65536 and cols = 1 the product
    is 2^32, no payload byte is there, and the call still succeeds, with
    no pixels. *)
Lemma readImages_payload_counterexample :
  readImages zero_Set
    (Gzip (image_stream (Quad xff xff xff xff) (Quad x00 x00 x00 x01)
             (Quad x00 x00 x00 x01) [x10] EOF))
    = (mkSet (-1) 1 1 None None, Panic MakesliceLen)
  /\ readImages zero_Set
    (Gzip (image_stream (Quad x00 x01 x00 x00) (Quad x00 x01 x00 x00)
             (Quad x00 x00 x00 x01) [] EOF))
    = (mkSet 65536 65536 1 (Some []) None, Return None).
Proof. split; reflexivity. Qed.

(** ** C9: the size of the pixel buffer *)

(** C9, as the code has it. The size n of the pixel buffer is the product
    of count, rows and cols reduced to [int32], so it agrees with the
    product modulo 2^32 and differs from it whenever the product is
    outside [int32]. When n is not negative the buffer is allocated with
    exactly n bytes, whether or not the payload is complete; when n is
    negative the allocation panics and the Set keeps the pixel slice it
    had. *)
Theorem pixel_buffer_size (s : Set_) (qc qr qk : quad) (payload : list byte)
    (e : error) :
  let c := quad_int32 qc in
  let r := quad_int32 qr in
  let k := quad_int32 qk in
  let n := Int32.mul (Int32.mul c r) k in
  let res := readImages s (Gzip (image_stream qc qr qk payload e)) in
  (n - c * r * k) mod 2 ^ 32 = 0
  /\ Int32.min <= n <= Int32.max
  /\ (c * r * k < Int32.min \/ Int32.max < c * r * k -> n <> c * r * k)
  /\ if n <? 0
     then snd res = Panic MakesliceLen /\ matrix (fst res) = matrix s
     else (exists err, snd res = Return err)
          /\ (exists buf, matrix (fst res) = Some buf)
          /\ len (matrix (fst res)) = n.
Proof.
  intros c r k n res. subst n. rewrite mul32_3.
  split; [apply wrap32_congr|]. split; [apply wrap32_range|].
  split; [pose proof (wrap32_range (c * r * k)); lia|].
  subst res. rewrite readImages_stream. cbv zeta. fold c r k.
  destruct (Z.ltb_spec (Int32.wrap (c * r * k)) 0) as [Hn|Hn]; [split; reflexivity|].
  destruct (Z.leb_spec (Int32.wrap (c * r * k)) (Z.of_nat (List.length payload)))
    as [Hp|Hp]; cbn [fst snd matrix].
  - split; [eauto|]. split; [eauto|]. unfold len. cbn [bytes].
    rewrite length_firstn. lia.
  - split; [eauto|]. split; [eauto|]. unfold len. cbn [bytes].
    rewrite length_app, length_zeros. lia.
Qed.

(** With count = rows = 2147483647 and cols = 1 the product is
    2^62 - 2^32 + 1 and the buffer has one byte. *)
Lemma pixel_buffer_size_witness :
  let res := readImages zero_Set
               (Gzip (image_stream (Quad x7f xff xff xff) (Quad x7f xff xff xff)
                        (Quad x00 x00 x00 x01) [x10; x20] EOF)) in
  Int32.mul (Int32.mul 2147483647 2147483647) 1
    <> 2147483647 * 2147483647 * 1
  /\ len (matrix (fst res)) = 1.
Proof.
  intros res.
  destruct (pixel_buffer_size zero_Set (Quad x7f xff xff xff)
              (Quad x7f xff xff xff) (Quad x00 x00 x00 x01) [x10; x20] EOF)
    as (_ & _ & Hne & Hlen).
  split.
  - apply Hne. right. vm_compute. reflexivity.
  - exact (proj2 (proj2 Hlen)).
Defined.

(** With count = 32768, rows = 65536 and cols = 1 the product is 2^31,
    beyond [int32]; reduced it is -2^31, the allocation panics and no
    pixel storage exists, of that length or of any other. *)
Lemma pixel_buffer_size_counterexample :
  let res := readImages zero_Set
               (Gzip (image_stream (Quad x00 x00 x80 x00) (Quad x00 x01 x00 x00)
                        (Quad x00 x00 x00 x01) [] EOF)) in
  Int32.max < 32768 * 65536 * 1
  /\ res = (mkSet 32768 65536 1 None None, Panic MakesliceLen)
  /\ len (matrix (fst res)) <> Int32.wrap (32768 * 65536 * 1).
Proof. cbv. repeat split; discriminate. Qed.

(** ** What a call that returned tells about the file *)

Lemma Read_ok_quad (z z' : reader) (v : Z) :
  Binary.Read z = (z', inr v) ->
  exists q, avail z = quad_bytes q ++ avail z' /\ fin z' = fin z
            /\ v = quad_int32 q.
Proof.
  intros H. apply Read_ok_inv in H as (b0 & b1 & b2 & b3 & Ha & Hf & Hv).
  exists (Quad b0 b1 b2 b3). auto.
Qed.

(** When [readImages] returns [nil], the stream began with the magic
    number of images and three more integers, the product n of these in
    [int32] is not negative, at least n bytes followed, and the Set holds
    the three integers and the first n of those bytes. *)
Lemma readImages_ok_inv (s s1 : Set_) (file : gzfile) :
  readImages s file = (s1, Return None) ->
  exists z qm qc qr qk payload,
    file = Gzip z
    /\ avail z = quad_bytes qm ++ quad_bytes qc ++ quad_bytes qr
                   ++ quad_bytes qk ++ payload
    /\ quad_int32 qm = xIMG
    /\ 0 <= Int32.wrap (quad_int32 qc * quad_int32 qr * quad_int32 qk)
         <= Z.of_nat (List.length payload)
    /\ s1 = mkSet (quad_int32 qc) (quad_int32 qr) (quad_int32 qk)
              (Some (firstn
                 (Z.to_nat (Int32.wrap
                    (quad_int32 qc * quad_int32 qr * quad_int32 qk))) payload))
              (labels s).
Proof.
  unfold readImages. destruct file as [e|e|z]; try discriminate.
  destruct (Binary.Read z) as [z1 [e|magic]] eqn:E0; try discriminate.
  destruct (Z.eqb_spec magic xIMG) as [Hm|Hm]; try discriminate.
  cbn [negb read_fields].
  destruct (Binary.Read z1) as [z2 [e|c]] eqn:E1; try discriminate.
  destruct (Binary.Read z2) as [z3 [e|r]] eqn:E2; try discriminate.
  destruct (Binary.Read z3) as [z4 [e|k]] eqn:E3; try discriminate.
  cbn [store count rows cols matrix labels]. rewrite mul32_3.
  destruct (Z.ltb_spec (Int32.wrap (c * r * k)) 0) as [Hn|Hn]; try discriminate.
  apply Read_ok_quad in E0 as (qm & A0 & F0 & ->).
  apply Read_ok_quad in E1 as (qc & A1 & F1 & ->).
  apply Read_ok_quad in E2 as (qr & A2 & F2 & ->).
  apply Read_ok_quad in E3 as (qk & A3 & F3 & ->).
  destruct z4 as [payload e4]. cbn [avail fin] in *.
  rewrite ReadFull_zeros.
  destruct (Nat.leb_spec
              (Z.to_nat (Int32.wrap (quad_int32 qc * quad_int32 qr * quad_int32 qk)))
              (List.length payload)) as [Hp|Hp]; try discriminate.
  intros H. inversion H; subst; clear H.
  exists z, qm, qc, qr, qk, payload.
  rewrite A0, A1, A2, A3. repeat split; auto; lia.
Qed.

(** The ways [readLabels] ends. Either it leaves the Set untouched and
    does not return [nil]: the file does not open, the stream is not gzip,
    the header is cut short, a number does not match, or the count is
    negative. Or the header is complete and agrees with the count of the
    Set, and the labels are read into a fresh buffer of count bytes. *)
Lemma readLabels_cases (s : Set_) (file : gzfile) :
  (fst (readLabels s file) = s /\ snd (readLabels s file) <> Return None)
  \/ exists z qm qc payload,
       file = Gzip z
       /\ avail z = quad_bytes qm ++ quad_bytes qc ++ payload
       /\ quad_int32 qm = xLAB
       /\ quad_int32 qc = count s
       /\ 0 <= count s
       /\ readLabels s file =
            if count s <=? Z.of_nat (List.length payload) then
              (mkSet (count s) (rows s) (cols s) (matrix s)
                 (Some (firstn (Z.to_nat (count s)) payload)), Return None)
            else
              (mkSet (count s) (rows s) (cols s) (matrix s)
                 (Some (payload
                          ++ zeros (Z.to_nat (count s) - List.length payload))),
               Return (Some (short_read payload (fin z)))).
Proof.
  unfold readLabels. destruct file as [e|e|z];
    try (left; split; [reflexivity|discriminate]).
  destruct (Binary.Read z) as [z1 [e|magic]] eqn:E0;
    try (left; split; [reflexivity|discriminate]).
  destruct (Z.eqb_spec magic xLAB) as [Hm|Hm]; cbn [negb];
    try (left; split; [reflexivity|discriminate]).
  destruct (Binary.Read z1) as [z2 [e|cnt]] eqn:E1;
    try (left; split; [reflexivity|discriminate]).
  destruct (Z.eqb_spec cnt (count s)) as [Hc|Hc]; cbn [negb];
    try (left; split; [reflexivity|discriminate]).
  destruct (Z.ltb_spec (count s) 0) as [Hn|Hn];
    try (left; split; [reflexivity|discriminate]).
  right.
  apply Read_ok_quad in E0 as (qm & A0 & F0 & ->).
  apply Read_ok_quad in E1 as (qc & A1 & F1 & ->).
  destruct z2 as [payload e2]. cbn [avail fin] in *.
  exists z, qm, qc, payload. rewrite A0, A1. repeat split; auto.
  rewrite ReadFull_zeros. subst e2. rewrite F0.
  destruct (Z.leb_spec (count s) (Z.of_nat (List.length payload)));
    destruct (Nat.leb_spec (Z.to_nat (count s)) (List.length payload));
    try lia; reflexivity.
Qed.

(** [read] is [readImages], then [readLabels] on what it left. *)
Lemma read_after_images (s s1 : Set_) (images lbls : gzfile) :
  readImages s images = (s1, Return None) ->
  read s images lbls = readLabels s1 lbls.
Proof. intros H. unfold read. rewrite H. reflexivity. Qed.

Lemma read_ok_inv (s s2 : Set_) (images lbls : gzfile) :
  read s images lbls = (s2, Return None) ->
  exists s1, readImages s images = (s1, Return None)
             /\ readLabels s1 lbls = (s2, Return None).
Proof.
  unfold read. destruct (readImages s images) as [s1 [[e|]|p]] eqn:E;
    try discriminate.
  intros H. exists s1. auto.
Qed.

(** ** C5: the two counts *)

(** C5. When [readImages] has returned [nil], so that the count of the
    image file is decoded and stored, and the label stream has a complete
    header whose count differs from it, [read] returns the error
    "mismatched number of labels and images" and the Set stays as
    [readImages] left it. *)
Theorem count_mismatch_rejected (s s1 : Set_) (images : gzfile) (qc : quad)
    (payload : list byte) (e : error) :
  readImages s images = (s1, Return None) ->
  quad_int32 qc <> count s1 ->
  read s images (Gzip (label_stream qc payload e)) =
    (s1, Return (Some (Errorf "mismatched number of labels and images"))).
Proof.
  intros Hi Hc. rewrite (read_after_images _ _ _ _ Hi), readLabels_header.
  destruct (Z.eqb_spec (quad_int32 qc) (count s1)); [contradiction|reflexivity].
Qed.

Lemma count_mismatch_rejected_witness :
  read zero_Set
    (Gzip (image_stream (Quad x00 x00 x00 x02) (Quad x00 x00 x00 x01)
             (Quad x00 x00 x00 x01) [x10; x20] EOF))
    (Gzip (label_stream (Quad x00 x00 x00 x03) [x05; x09; x01] EOF))
  = (mkSet 2 1 1 (Some [x10; x20]) None,
     Return (Some (Errorf "mismatched number of labels and images"))).
Proof.
  apply (count_mismatch_rejected zero_Set (mkSet 2 1 1 (Some [x10; x20]) None)).
  - reflexivity.
  - vm_compute. discriminate.
Defined.

(** ** C7: the range of labels and pixels *)

(** C7, as the code has it. After a [read] that returned [nil], the pixels
    are the bytes that follow the 16-byte header of the image stream and
    the labels are the count bytes that follow the 8-byte header of the
    label stream, stored as they are; every one of them is in [0,255] and
    nothing narrower is checked. *)
Theorem payload_bytes_unchecked (s0 s : Set_) (zi zl : reader) :
  read s0 (Gzip zi) (Gzip zl) = (s, Return None) ->
  bytes (matrix s) = firstn (Z.to_nat (len (matrix s))) (skipn 16 (avail zi))
  /\ bytes (labels s) = firstn (Z.to_nat (count s)) (skipn 8 (avail zl))
  /\ Forall (fun b => 0 <= byte_val b <= 255) (bytes (matrix s))
  /\ Forall (fun b => 0 <= byte_val b <= 255) (bytes (labels s)).
Proof.
  intros H. apply read_ok_inv in H as (s1 & Hi & Hl).
  apply readImages_ok_inv in Hi
    as (z & qm & qc & qr & qk & payload & Hz & Ha & _ & Hn & ->).
  injection Hz as <-.
  destruct (readLabels_cases
              (mkSet (quad_int32 qc) (quad_int32 qr) (quad_int32 qk)
                 (Some (firstn (Z.to_nat (Int32.wrap
                    (quad_int32 qc * quad_int32 qr * quad_int32 qk))) payload))
                 (labels s0)) (Gzip zl))
    as [[_ Hne]|(z & qm' & qc' & lp & Hz & Hal & _ & _ & Hc & Hr)].
  { rewrite Hl in Hne. now elim Hne. }
  injection Hz as <-. rewrite Hl in Hr. cbn [count rows cols matrix labels] in Hr, Hc.
  destruct (Z.leb_spec (quad_int32 qc) (Z.of_nat (List.length lp)));
    [|discriminate].
  injection Hr as ->. cbn [matrix labels count bytes].
  split; [|split; [|split]].
  - rewrite Ha. destruct qm, qc, qr, qk. cbn [quad_bytes app skipn].
    unfold len. cbn [bytes]. rewrite Nat2Z.id, length_firstn.
    f_equal. lia.
  - rewrite Hal. destruct qm', qc'. reflexivity.
  - apply Forall_forall. intros b _. apply byte_val_range.
  - apply Forall_forall. intros b _. apply byte_val_range.
Qed.

Lemma payload_bytes_unchecked_witness :
  let s := mkSet 1 1 1 (Some [x00]) (Some [x0a]) in
  bytes (labels s) = [x0a]
  /\ Forall (fun b => 0 <= byte_val b <= 255) (bytes (labels s)).
Proof.
  intros s.
  destruct (payload_bytes_unchecked zero_Set s
              (image_stream (Quad x00 x00 x00 x01) (Quad x00 x00 x00 x01)
                 (Quad x00 x00 x00 x01) [x00] EOF)
              (label_stream (Quad x00 x00 x00 x01) [x0a] EOF))
    as (_ & Hl & _ & Hr); [reflexivity|].
  split; [exact Hl | exact Hr].
Defined.

(** A label stream with count 1 and the label byte 0x0a loads without an
    error, and the label 10 is in the Set. *)
Lemma payload_bytes_unchecked_counterexample :
  let res := read zero_Set
    (Gzip (image_stream (Quad x00 x00 x00 x01) (Quad x00 x00 x00 x01)
             (Quad x00 x00 x00 x01) [x00] EOF))
    (Gzip (label_stream (Quad x00 x00 x00 x01) [x0a] EOF)) in
  res = (mkSet 1 1 1 (Some [x00]) (Some [x0a]), Return None)
  /\ ~ Forall (fun b => 0 <= byte_val b <= 9) (bytes (labels (fst res))).
Proof.
  split; [reflexivity|].
  intros H. inversion H as [|b l Hb _]; subst. vm_compute in Hb.
  destruct Hb as [_ Hb]. now apply Hb.
Qed.

(** ** C10: what a failed [read] leaves behind *)

(** [readLabels] on a stream whose header is complete and agrees with the
    count of the Set, in one equation. *)
Lemma readLabels_agree (s : Set_) (qm qc : quad) (payload : list byte)
    (e : error) :
  quad_int32 qm = xLAB ->
  quad_int32 qc = count s ->
  readLabels s (Gzip (mkReader (quad_bytes qm ++ quad_bytes qc ++ payload) e)) =
    if count s <? 0 then (s, Panic MakesliceLen)
    else if count s <=? Z.of_nat (List.length payload) then
      (mkSet (count s) (rows s) (cols s) (matrix s)
         (Some (firstn (Z.to_nat (count s)) payload)), Return None)
    else
      (mkSet (count s) (rows s) (cols s) (matrix s)
         (Some (payload ++ zeros (Z.to_nat (count s) - List.length payload))),
       Return (Some (short_read payload e))).
Proof.
  intros Hm Hc. unfold readLabels.
  rewrite Read_quad, Hm, Z.eqb_refl. cbn [negb].
  rewrite Read_quad, Hc, Z.eqb_refl. cbn [negb].
  destruct (Z.ltb_spec (count s) 0); [reflexivity|].
  rewrite ReadFull_zeros.
  destruct (Z.leb_spec (count s) (Z.of_nat (List.length payload)));
    destruct (Nat.leb_spec (Z.to_nat (count s)) (List.length payload));
    try lia; reflexivity.
Qed.

(** C10, as the code has it. When [readImages] has returned [nil] and
    [readLabels] then returns an error, [read] returns that error, and
    count, rows, cols and the pixels stay as [readImages] stored them.
    What becomes of the labels field is decided by the header of the
    label stream. If the header is complete, with the magic number of
    labels and the count of the image file, [readLabels] has allocated:
    fewer than count labels were in the stream, the error is that of the
    short read, and the field is the new buffer of count bytes, the
    labels that were read followed by zeros. In every other case (the
    file does not open, is not gzip, its header is cut short, the magic
    number is wrong or the counts differ) the field is as it was before
    [read], unset for a fresh Set. *)
Theorem read_not_atomic (s s1 s2 : Set_) (images lbls : gzfile) (e : error) :
  readImages s images = (s1, Return None) ->
  readLabels s1 lbls = (s2, Return (Some e)) ->
  read s images lbls = (s2, Return (Some e))
  /\ count s2 = count s1 /\ rows s2 = rows s1 /\ cols s2 = cols s1
  /\ matrix s2 = matrix s1
  /\ (forall z qm qc payload,
        lbls = Gzip z ->
        avail z = quad_bytes qm ++ quad_bytes qc ++ payload ->
        quad_int32 qm = xLAB ->
        quad_int32 qc = count s1 ->
        Z.of_nat (List.length payload) < count s1
        /\ e = short_read payload (fin z)
        /\ labels s2 =
             Some (payload
                     ++ zeros (Z.to_nat (count s1) - List.length payload)))
  /\ (~ (exists z qm qc payload,
           lbls = Gzip z
           /\ avail z = quad_bytes qm ++ quad_bytes qc ++ payload
           /\ quad_int32 qm = xLAB
           /\ quad_int32 qc = count s1) ->
      labels s2 = labels s).
Proof.
  intros Hi Hl. split; [rewrite (read_after_images _ _ _ _ Hi); exact Hl|].
  assert (Hlab : labels s1 = labels s).
  { apply readImages_ok_inv in Hi as (? & ? & ? & ? & ? & ? & _ & _ & _ & _ & ->).
    reflexivity. }
  assert (Hframe : count s2 = count s1 /\ rows s2 = rows s1
                   /\ cols s2 = cols s1 /\ matrix s2 = matrix s1).
  { destruct (readLabels_cases s1 lbls)
      as [[Hs _]|(z & qm & qc & payload & _ & _ & _ & _ & _ & Hr)].
    - rewrite Hl in Hs. cbn [fst] in Hs. subst s2. auto.
    - rewrite Hl in Hr.
      destruct (count s1 <=? Z.of_nat (List.length payload));
        injection Hr as -> _; cbn; auto. }
  destruct Hframe as (Fc & Fr & Fk & Fm).
  repeat (split; [assumption|]). split.
  - intros z qm qc payload -> Ha Hm Hq.
    destruct z as [av fz]. cbn [avail fin] in *. subst av.
    rewrite (readLabels_agree s1 qm qc payload fz Hm Hq) in Hl.
    destruct (count s1 <? 0); [discriminate|].
    destruct (Z.leb_spec (count s1) (Z.of_nat (List.length payload)));
      [discriminate|].
    injection Hl as <- <-. cbn [labels]. auto.
  - intros Hno.
    destruct (readLabels_cases s1 lbls)
      as [[Hs _]|(z & qm & qc & payload & Hz & Ha & Hm & Hq & _)].
    + rewrite Hl in Hs. cbn [fst] in Hs. subst s2. exact Hlab.
    + elim Hno. exists z, qm, qc, payload. auto.
Qed.

(** The labels stream promises two labels and holds one: [read] fails with
    [io.ErrUnexpectedEOF], and the labels field is set, to the label read
    and a zero. *)
Lemma read_not_atomic_counterexample :
  let res := read zero_Set
    (Gzip (image_stream (Quad x00 x00 x00 x02) (Quad x00 x00 x00 x01)
             (Quad x00 x00 x00 x01) [x10; x20] EOF))
    (Gzip (label_stream (Quad x00 x00 x00 x02) [x05] EOF)) in
  res = (mkSet 2 1 1 (Some [x10; x20]) (Some [x05; x00]),
         Return (Some ErrUnexpectedEOF))
  /\ labels (fst res) <> None.
Proof. split; [reflexivity|discriminate]. Qed.

(** The same two files, through the theorem: the header of the labels is
    complete and agrees, so the labels field is the new buffer. With a
    labels file that does not open, the field stays unset. *)
Lemma read_not_atomic_witness :
  let images := Gzip (image_stream (Quad x00 x00 x00 x02) (Quad x00 x00 x00 x01)
                        (Quad x00 x00 x00 x01) [x10; x20] EOF) in
  let s1 := mkSet 2 1 1 (Some [x10; x20]) None in
  let s2 := mkSet 2 1 1 (Some [x10; x20]) (Some [x05; x00]) in
  labels s2 = Some ([x05] ++ zeros (Z.to_nat 2 - 1))
  /\ ErrUnexpectedEOF = short_read [x05] EOF
  /\ labels s1 = labels zero_Set.
Proof.
  intros images s1 s2.
  destruct (read_not_atomic zero_Set s1 s2 images
              (Gzip (label_stream (Quad x00 x00 x00 x02) [x05] EOF))
              ErrUnexpectedEOF)
    as (_ & _ & _ & _ & _ & Hset & _); [reflexivity|reflexivity|].
  destruct (Hset (label_stream (Quad x00 x00 x00 x02) [x05] EOF)
              (Quad x00 x00 x08 x01) (Quad x00 x00 x00 x02) [x05])
    as (_ & He & Hs2); [reflexivity|reflexivity|reflexivity|reflexivity|].
  destruct (read_not_atomic zero_Set s1 s1 images
              (OpenFails (LibErr "no such file or directory"))
              (LibErr "no such file or directory"))
    as (_ & _ & _ & _ & _ & _ & Hkeep); [reflexivity|reflexivity|].
  split; [exact Hs2|]. split; [exact He|].
  apply Hkeep. intros (z & qm & qc & payload & Hz & _). discriminate.
Defined.

(** ** C6: the slicing scheme *)

Lemma concat_chunks (st : nat) (c : nat) : forall m : list byte,
  List.length m = (c * st)%nat ->
  List.concat (map (fun i => firstn st (skipn (i * st) m)) (seq 0 c)) = m.
Proof.
  induction c as [|c IH]; intros m H.
  - destruct m; [reflexivity|discriminate].
  - cbn [seq map List.concat]. rewrite <- seq_shift, map_map.
    rewrite (map_ext _ (fun i => firstn st (skipn (i * st) (skipn st m)))).
    + rewrite IH; [apply firstn_skipn|]. rewrite length_skipn. lia.
    + intros i. rewrite skipn_skipn. do 2 f_equal. lia.
Qed.

(** The shape of a Set after a [read] that returned [nil]: the three
    fields are [int32] values, the count is not negative, there are count
    labels, and the pixels number the product of the fields reduced to
    [int32]. *)
Lemma read_ok_shape (s0 s : Set_) (images lbls : gzfile) :
  read s0 images lbls = (s, Return None) ->
  exists m l,
    matrix s = Some m /\ labels s = Some l
    /\ 0 <= count s <= Int32.max
    /\ Int32.min <= rows s <= Int32.max
    /\ Int32.min <= cols s <= Int32.max
    /\ Z.of_nat (List.length l) = count s
    /\ Z.of_nat (List.length m) = Int32.wrap (count s * rows s * cols s).
Proof.
  intros H. apply read_ok_inv in H as (s1 & Hi & Hl).
  apply readImages_ok_inv in Hi
    as (z & qm & qc & qr & qk & payload & _ & _ & _ & Hn & ->).
  match type of Hl with readLabels ?s1 _ = _ =>
    destruct (readLabels_cases s1 lbls)
      as [[_ Hne]|(z' & qm' & qc' & lp & _ & _ & _ & _ & Hc & Hr)]
  end.
  { rewrite Hl in Hne. now elim Hne. }
  rewrite Hl in Hr. cbn [count rows cols matrix labels] in Hr, Hc.
  destruct (Z.leb_spec (quad_int32 qc) (Z.of_nat (List.length lp)));
    [|discriminate].
  injection Hr as ->. cbn [matrix labels count rows cols].
  do 2 eexists. split; [reflexivity|]. split; [reflexivity|].
  pose proof (wrap32_range (let '(Quad a b c d) := qc in be_uint32 a b c d)) as Rc.
  pose proof (wrap32_range (let '(Quad a b c d) := qr in be_uint32 a b c d)) as Rr.
  pose proof (wrap32_range (let '(Quad a b c d) := qk in be_uint32 a b c d)) as Rk.
  assert (Ec : forall q, Int32.wrap (let '(Quad a b c d) := q in be_uint32 a b c d)
                         = quad_int32 q) by (intros []; reflexivity).
  rewrite Ec in Rc, Rr, Rk.
  rewrite !length_firstn. repeat split; try lia.
Qed.

(** C6, as the code has it. After a [read] that returned [nil], if the
    product of count, rows and cols fits [int32], then for every index i
    with 0 <= i < Len, [Index] returns the i-th label and the rows*cols
    pixels at positions i*rows*cols up to (i+1)*rows*cols of the pixel
    storage, and the images of the indices 0 to Len-1, one after the
    other, are the pixel storage. *)
Theorem slicing_round_trip (s0 s : Set_) (images lbls : gzfile) :
  read s0 images lbls = (s, Return None) ->
  Int32.in_range (count s * rows s * cols s) ->
  (forall i, 0 <= i < Len s ->
     Index s i =
       Return (nth (Z.to_nat i) (bytes (labels s)) x00,
               firstn (Z.to_nat (rows s * cols s))
                 (skipn (Z.to_nat (i * (rows s * cols s))) (bytes (matrix s))))
     /\ Z.of_nat (List.length (image_at s i)) = rows s * cols s)
  /\ List.concat (images_of s) = bytes (matrix s).
Proof.
  intros H Hfit. unfold Int32.in_range in Hfit.
  destruct (read_ok_shape _ _ _ _ H) as (m & l & Hm & Hl & Hc & Hr & Hk & Ll & Lm).
  rewrite wrap32_id in Lm by assumption.
  unfold Len. set (p := rows s * cols s) in *.
  assert (Lm' : Z.of_nat (List.length m) = count s * p)
    by (rewrite Lm; unfold p; ring).
  unfold Int32.min, Int32.max in *.
  assert (Hp : 0 < count s -> 0 <= p <= 2 ^ 31 - 1) by nia.
  assert (Hidx : forall i, 0 <= i < count s ->
            Index s i =
              Return (nth (Z.to_nat i) l x00,
                      firstn (Z.to_nat p) (skipn (Z.to_nat (i * p)) m))).
  { intros i Hi. specialize (Hp ltac:(lia)).
    unfold Index, Int32.mul. fold p.
    rewrite (wrap32_id p) by (unfold Int32.min, Int32.max; lia).
    unfold index, len. rewrite Hl. cbn [bytes].
    replace (andb (0 <=? i) (i <? Z.of_nat (List.length l))) with true
      by (symmetry; apply andb_true_intro; split;
          [apply Z.leb_le | apply Z.ltb_lt]; lia).
    unfold Int.mul, Int.add.
    rewrite (wrap64_id (i + 1)) by lia.
    rewrite !wrap64_id by nia.
    unfold slice, len. rewrite Hm. cbn [bytes].
    replace (andb (andb (0 <=? i * p) (i * p <=? (i + 1) * p))
               ((i + 1) * p <=? Z.of_nat (List.length m))) with true
      by (symmetry; repeat (apply andb_true_intro; split); apply Z.leb_le; nia).
    do 4 f_equal. ring. }
  assert (Hat : forall i, 0 <= i < count s ->
            image_at s i = firstn (Z.to_nat p) (skipn (Z.to_nat (i * p)) m)).
  { intros i Hi. unfold image_at. rewrite (Hidx i Hi). reflexivity. }
  rewrite Hm, Hl. cbn [bytes]. split.
  - intros i Hi. split; [apply Hidx; assumption|].
    rewrite (Hat i Hi). specialize (Hp ltac:(lia)).
    rewrite length_firstn, length_skipn.
    assert ((i + 1) * p <= count s * p) by nia.
    assert (0 <= i * p) by nia. lia.
  - unfold images_of, Len.
    rewrite (map_ext_in _
               (fun i => firstn (Z.to_nat p) (skipn (i * Z.to_nat p) m))).
    + apply concat_chunks.
      destruct (Z.eq_dec (count s) 0) as [E|E].
      * rewrite E in *. cbn. lia.
      * specialize (Hp ltac:(lia)).
        rewrite <- Z2Nat.inj_mul by lia. lia.
    + intros i Hi. apply in_seq in Hi.
      rewrite Hat by lia. specialize (Hp ltac:(lia)).
      do 2 f_equal. rewrite Z2Nat.inj_mul by lia. rewrite Nat2Z.id. reflexivity.
Qed.

Lemma slicing_round_trip_witness :
  let s := mkSet 2 1 1 (Some [x10; x20]) (Some [x05; x09]) in
  Index s 1 = Return (x09, [x20])
  /\ List.concat (images_of s) = [x10; x20].
Proof.
  intros s.
  destruct (slicing_round_trip zero_Set s
              (Gzip (image_stream (Quad x00 x00 x00 x02) (Quad x00 x00 x00 x01)
                       (Quad x00 x00 x00 x01) [x10; x20] EOF))
              (Gzip (label_stream (Quad x00 x00 x00 x02) [x05; x09] EOF)))
    as (Hi & Hc); [reflexivity | vm_compute; split; discriminate |].
  split; [exact (proj1 (Hi 1 ltac:(vm_compute; split; [discriminate|reflexivity]))) | exact Hc].
Defined.

(** With count = 2, rows = 65536 and cols = 32768 the size of the buffer
    is 2^32 reduced to [int32], which is 0: both files load with no pixel
    at all, and the stride of [Index] is 2^31 reduced to [int32], which
    is -2^31, so [Index] panics on the index 0. *)
Lemma slicing_round_trip_counterexample :
  let res := read zero_Set
    (Gzip (image_stream (Quad x00 x00 x00 x02) (Quad x00 x01 x00 x00)
             (Quad x00 x00 x80 x00) [] EOF))
    (Gzip (label_stream (Quad x00 x00 x00 x02) [x05; x09] EOF)) in
  res = (mkSet 2 65536 32768 (Some []) (Some [x05; x09]), Return None)
  /\ 0 <= 0 < Len (fst res)
  /\ Index (fst res) 0 = Panic SliceBounds.
Proof. cbv. repeat split; discriminate. Qed.

(** ** C1: the cache check *)

Lemma table_hashes_lower_case :
  Forall (fun d => Fmt.to_lower (md5 d) = md5 d) mnist.
Proof. repeat constructor. Qed.

Lemma Copy_to_hash (r : reader) :
  Io.Copy hash_writer r =
    (avail r, Z.of_nat (List.length (avail r)),
     if is_EOF (fin r) then None else Some (fin r)).
Proof. reflexivity. Qed.

(** For a lower-case expected hash, comparing with the digits [Sprintf]
    writes is comparing without regard to case. *)
Lemma eq_fold_lower (digest : list byte) (want : string) :
  Fmt.to_lower want = want ->
  Fmt.eq_fold (Fmt.sprintf_x_bytes digest) want
    = String.eqb (Fmt.sprintf_x_bytes digest) want.
Proof.
  intros H. unfold Fmt.eq_fold. now rewrite to_lower_sprintf_x_bytes, H.
Qed.

(** C1, as the code has it. For a descriptor whose expected hash is in
    lower case, as the four of the table are, the check keeps the local
    file exactly when it opens, [Stat] gives the expected length, reading
    it to hash it ends without an error after the expected number of
    bytes, and the hex MD5 digest equals the expected hash without regard
    to case. An error of the read that feeds the hash stops the process
    (it goes to [isNil]); in every other case (the file does not open,
    [Stat] fails, the length is wrong, the digest is wrong) the file is
    invalid and the download follows. *)
Theorem cache_check (d : asset) (opened : error + rfile) :
  Fmt.to_lower (md5 d) = md5 d ->
  (check d opened = Valid <-> isValid_spec d opened = true)
  /\ (forall h, check d opened = Stop h <->
        exists f, opened = inr f /\ stat f = Some (length d)
                  /\ is_EOF (fin (content f)) = false
                  /\ h = FatalErr (fin (content f)))
  /\ (check d opened = Invalid <->
        isValid_spec d opened = false
        /\ ~ (exists f, opened = inr f /\ stat f = Some (length d)
                        /\ is_EOF (fin (content f)) = false)).
Proof.
  intros Hlow. unfold check, isValid_spec.
  destruct opened as [e|f].
  { split; [split; discriminate|]. split.
    - intros h. split; [discriminate|]. intros (f & Hf & _). discriminate.
    - split; [|reflexivity]. intros _. split; [reflexivity|].
      intros (f & Hf & _). discriminate. }
  destruct (stat f) as [size|] eqn:Hs.
  2:{ split; [split; discriminate|]. split.
      - intros h. split; [discriminate|]. intros (f' & Hf & Hs' & _).
        injection Hf as <-. congruence.
      - split; [|reflexivity]. intros _. split; [reflexivity|].
        intros (f' & Hf & Hs' & _). injection Hf as <-. congruence. }
  destruct (Z.eqb_spec size (length d)) as [Hsz|Hsz].
  2:{ cbn [andb]. split; [split; discriminate|]. split.
      - intros h. split; [discriminate|]. intros (f' & Hf & Hs' & _).
        injection Hf as <-. congruence.
      - split; [|reflexivity]. intros _. split; [reflexivity|].
        intros (f' & Hf & Hs' & _). injection Hf as <-. congruence. }
  subst size. rewrite Copy_to_hash, (eq_fold_lower _ _ Hlow). cbn [andb].
  destruct (is_EOF (fin (content f))) eqn:He; cbn [andb].
  - destruct (andb _ _) eqn:Hb.
    + split; [tauto|]. split.
      * intros h. split; [discriminate|]. intros (f' & Hf & _ & He' & _).
        injection Hf as <-. congruence.
      * split; [discriminate|]. intros [? _]. discriminate.
    + split; [split; discriminate|]. split.
      * intros h. split; [discriminate|]. intros (f' & Hf & _ & He' & _).
        injection Hf as <-. congruence.
      * split; [|reflexivity]. intros _. split; [reflexivity|].
        intros (f' & Hf & _ & He'). injection Hf as <-. congruence.
  - split; [split; discriminate|]. split.
    + intros h. split.
      * intros H. injection H as <-. exists f. auto.
      * intros (f' & Hf & _ & _ & ->). injection Hf as <-. reflexivity.
    + split; [discriminate|]. intros [_ Hn]. elim Hn. exists f. auto.
Qed.

(** A three-byte file holding "abc" passes the check of a descriptor with
    length 3 and the MD5 digest of "abc". *)
Lemma cache_check_witness :
  check (mkAsset "" "" 3 "900150983cd24fb0d6963f7d28e17f72")
        (inr (mkRfile (Some 3) (mkReader [x61; x62; x63] EOF))) = Valid.
Proof.
  apply (cache_check (mkAsset "" "" 3 "900150983cd24fb0d6963f7d28e17f72")
           (inr (mkRfile (Some 3) (mkReader [x61; x62; x63] EOF)))
           eq_refl).
  vm_compute. reflexivity.
Defined.

(** The cached train-labels file opens and has the expected size, but
    reading it fails: the check neither accepts the file nor calls it
    invalid, it stops the process with the error. Beside it, a descriptor
    outside the table, with its hash in upper case: the file matches it
    without regard to case and is still invalid for the code. *)
Lemma cache_check_counterexample :
  let d := asset_at 1 in
  let f := mkRfile (Some 28881) (mkReader [] (LibErr "input/output error")) in
  let d' := mkAsset "" "" 3 "900150983CD24FB0D6963F7D28E17F72" in
  let f' := mkRfile (Some 3) (mkReader [x61; x62; x63] EOF) in
  isValid_spec d (inr f) = false
  /\ check d (inr f) = Stop (FatalErr (LibErr "input/output error"))
  /\ check d (inr f) <> Invalid
  /\ isValid_spec d' (inr f') = true
  /\ check d' (inr f') = Invalid.
Proof. vm_compute. repeat split; discriminate. Qed.

(** ** C2: the download *)

(** C2, as the code has it. The download stops on the error of [cl.Get]
    when the request fails, and on the error of [os.Create] when the local
    file cannot be made. Once both succeed, whatever the status of the
    response, the body is copied; the download stops on a length mismatch
    exactly when the number of bytes written differs from the expected
    length, stops on the error of the copy when that number is right and
    the copy reported an error, and succeeds otherwise. The status of the
    response has no part in it. *)
Theorem fetch_outcomes (d : asset) (w : world) :
  (forall n want,
      fetch d w = inl (FatalLength n want) <->
      exists res f written err,
        cl_Get w = inr res /\ os_Create w = inr f
        /\ Io.Copy f (body res) = (written, n, err)
        /\ n <> length d /\ want = length d)
  /\ (forall e,
      fetch d w = inl (FatalErr e) <->
      cl_Get w = inl e
      \/ (exists res, cl_Get w = inr res /\ os_Create w = inl e)
      \/ (exists res f written,
            cl_Get w = inr res /\ os_Create w = inr f
            /\ Io.Copy f (body res) = (written, length d, Some e)))
  /\ (forall data,
      fetch d w = inr data <->
      exists res f,
        cl_Get w = inr res /\ os_Create w = inr f
        /\ Io.Copy f (body res) = (data, length d, None))
  /\ (forall res st,
      cl_Get w = inr res ->
      fetch d (mkWorld (os_Open w) (inr (mkResponse st (body res))) (os_Create w))
        = fetch d w).
Proof.
  unfold fetch. destruct w as [o g c]. cbn [cl_Get os_Create os_Open].
  destruct g as [eg|res].
  { split; [|split; [|split]].
    - intros n want. split; [discriminate|]. intros (? & ? & ? & ? & H & _). discriminate.
    - intros e. split.
      + intros H. injection H as <-. auto.
      + intros [H|[(? & H & _)|(? & ? & ? & H & _)]]; try discriminate.
        injection H as <-. reflexivity.
    - intros data. split; [discriminate|]. intros (? & ? & H & _). discriminate.
    - intros ? ? H. discriminate. }
  destruct c as [ec|f].
  { split; [|split; [|split]].
    - intros n want. split; [discriminate|]. intros (? & ? & ? & ? & _ & H & _). discriminate.
    - intros e. split.
      + intros H. injection H as <-. right. left. eauto.
      + intros [H|[(? & _ & H)|(? & ? & ? & _ & H & _)]]; try discriminate.
        injection H as <-. reflexivity.
    - intros data. split; [discriminate|]. intros (? & ? & _ & H & _). discriminate.
    - intros ? ? H. reflexivity. }
  destruct (Io.Copy f (body res)) as [[written n] err] eqn:Hcopy.
  destruct (Z.eqb_spec n (length d)) as [Hn|Hn]; cbn [negb].
  - subst n. split; [|split; [|split]].
    + intros n want. split.
      * destruct err; discriminate.
      * intros (res' & f' & wr & err' & Hg & Hc & Hcp & Hne & _).
        injection Hg as <-. injection Hc as <-. rewrite Hcopy in Hcp.
        injection Hcp as _ Hl _. congruence.
    + intros e. split.
      * destruct err as [e'|]; [|discriminate].
        intros H. injection H as <-. right. right. exists res, f, written. auto.
      * intros [H|[(? & _ & H)|(res' & f' & wr & Hg & Hc & Hcp)]];
          try discriminate.
        injection Hg as <-. injection Hc as <-. rewrite Hcopy in Hcp.
        injection Hcp as _ ->. reflexivity.
    + intros data. split.
      * destruct err as [e'|]; [discriminate|].
        intros H. injection H as <-. exists res, f. auto.
      * intros (res' & f' & Hg & Hc & Hcp).
        injection Hg as <-. injection Hc as <-. rewrite Hcopy in Hcp.
        injection Hcp as -> ->. reflexivity.
    + intros res' st H. injection H as <-. cbn [body]. rewrite Hcopy.
      rewrite Z.eqb_refl. reflexivity.
  - split; [|split; [|split]].
    + intros n' want. split.
      * intros H. injection H as <- <-. exists res, f, written, err. auto.
      * intros (res' & f' & wr & err' & Hg & Hc & Hcp & Hne & ->).
        injection Hg as <-. injection Hc as <-. rewrite Hcopy in Hcp.
        injection Hcp as _ -> _. reflexivity.
    + intros e. split; [discriminate|].
      intros [H|[(? & _ & H)|(res' & f' & wr & Hg & Hc & Hcp)]];
        try discriminate.
      injection Hg as <-. injection Hc as <-. rewrite Hcopy in Hcp.
      injection Hcp as _ Hl _. contradiction.
    + intros data. split; [discriminate|].
      intros (res' & f' & Hg & Hc & Hcp).
      injection Hg as <-. injection Hc as <-. rewrite Hcopy in Hcp.
      injection Hcp as _ Hl _. contradiction.
    + intros res' st H. injection H as <-. cbn [body]. rewrite Hcopy.
      destruct (Z.eqb_spec n (length d)); [contradiction|reflexivity].
Qed.

(** The server answers the request for the t10k-labels file with the
    status 404. With the usual 19-byte body the download stops on a length
    mismatch, not on a failure of the request; with a body of 4542 bytes,
    the expected length, the download succeeds and the body is the cached
    file. And when the request succeeds with 200 and the right body but
    [os.Create] fails, the download stops, on an error that is neither a
    length mismatch nor one of the request. *)
Lemma fetch_outcomes_counterexample :
  let d := asset_at 3 in
  let page := list_byte_of_string "404 page not found" ++ [x0a] in
  let disk := mkWriter None EOF in
  let w1 := mkWorld (inl (LibErr "no such file or directory"))
              (inr (mkResponse 404 (mkReader page EOF))) (inr disk) in
  let w2 := mkWorld (inl (LibErr "no such file or directory"))
              (inr (mkResponse 404 (mkReader (zeros 4542) EOF))) (inr disk) in
  let w3 := mkWorld (inl (LibErr "no such file or directory"))
              (inr (mkResponse 200 (mkReader (zeros 4542) EOF)))
              (inl (LibErr "permission denied")) in
  request_failed_spec w1 = true
  /\ fetch d w1 = inl (FatalLength 19 4542)
  /\ request_failed_spec w2 = true
  /\ fetch d w2 = inr (zeros 4542)
  /\ request_failed_spec w3 = false
  /\ fetch d w3 = inl (FatalErr (LibErr "permission denied")).
Proof. vm_compute. repeat split. Qed.

(** With the status 200 and a body of the expected 4542 bytes the download
    of the t10k-labels file succeeds. *)
Lemma fetch_outcomes_witness :
  fetch (asset_at 3)
    (mkWorld (inl (LibErr "no such file or directory"))
       (inr (mkResponse 200 (mkReader (zeros 4542) EOF)))
       (inr (mkWriter None EOF)))
  = inr (zeros 4542).
Proof.
  apply (fetch_outcomes (asset_at 3)
           (mkWorld (inl (LibErr "no such file or directory"))
              (inr (mkResponse 200 (mkReader (zeros 4542) EOF)))
              (inr (mkWriter None EOF)))).
  do 2 eexists. repeat split.
Defined.

(** ** The loop of [init] *)

(** The download is skipped exactly when the check accepts the file. *)
Lemma init_step_kept (d : asset) (w : world) :
  init_step d w = Kept <-> check d (os_Open w) = Valid.
Proof.
  unfold init_step. destruct (check d (os_Open w)).
  - tauto.
  - destruct (fetch d w); split; discriminate.
  - split; discriminate.
Qed.

(** The download runs exactly when the check finds the file invalid. *)
Lemma init_step_fetches (d : asset) (w : world) :
  check d (os_Open w) = Invalid ->
  init_step d w =
    match fetch d w with inl h => Halted h | inr data => Downloaded data end.
Proof. intros H. unfold init_step. now rewrite H. Qed.


(** * More of the code *)

(** ** What the decoders leave alone *)

(** [readImages] never writes the labels, however it ends. *)
Theorem readImages_keeps_labels (s : Set_) (file : gzfile) :
  labels (fst (readImages s file)) = labels s.
Proof.
  unfold readImages. destruct file as [e|e|z]; try reflexivity.
  destruct (Binary.Read z) as [z1 [e|magic]]; try reflexivity.
  destruct (negb (magic =? xIMG)); try reflexivity.
  cbn [read_fields].
  destruct (Binary.Read z1) as [z2 [e|c]]; try reflexivity.
  destruct (Binary.Read z2) as [z3 [e|r]]; try reflexivity.
  destruct (Binary.Read z3) as [z4 [e|k]]; try reflexivity.
  cbn [store count rows cols matrix labels].
  destruct (_ <? 0); try reflexivity.
  destruct (Io.ReadFull _ _) as [[[? ?] ?] ?]. reflexivity.
Qed.

(** [readLabels] never writes count, rows, cols or the pixels, however it
    ends. *)
Theorem readLabels_keeps_images (s : Set_) (file : gzfile) :
  let s' := fst (readLabels s file) in
  count s' = count s /\ rows s' = rows s /\ cols s' = cols s
  /\ matrix s' = matrix s.
Proof.
  unfold readLabels. destruct file as [e|e|z]; try (cbn; tauto).
  destruct (Binary.Read z) as [z1 [e|magic]]; try (cbn; tauto).
  destruct (negb (magic =? xLAB)); try (cbn; tauto).
  destruct (Binary.Read z1) as [z2 [e|c]]; try (cbn; tauto).
  destruct (negb (c =? count s)); try (cbn; tauto).
  destruct (count s <? 0); try (cbn; tauto).
  destruct (Io.ReadFull _ _) as [[[? ?] ?] ?]. cbn. tauto.
Qed.

(** ** The labels payload *)

(** On a label stream with a complete header, [readLabels] compares the
    count with the count of the Set first. When they agree and are not
    negative it succeeds with exactly the first count bytes that follow
    the header, whatever comes after them; with fewer than count bytes it
    fails with the error of the short read and leaves the bytes read,
    followed by zeros. When they agree and are negative the allocation
    panics. *)
Theorem readLabels_payload (s : Set_) (qc : quad) (payload : list byte)
    (e : error) :
  readLabels s (Gzip (label_stream qc payload e)) =
    if negb (quad_int32 qc =? count s) then
      (s, Return (Some (Errorf "mismatched number of labels and images")))
    else if count s <? 0 then (s, Panic MakesliceLen)
    else if count s <=? Z.of_nat (List.length payload) then
      (mkSet (count s) (rows s) (cols s) (matrix s)
         (Some (firstn (Z.to_nat (count s)) payload)), Return None)
    else
      (mkSet (count s) (rows s) (cols s) (matrix s)
         (Some (payload ++ zeros (Z.to_nat (count s) - List.length payload))),
       Return (Some (short_read payload e))).
Proof.
  rewrite readLabels_header.
  destruct (negb (quad_int32 qc =? count s)); [reflexivity|].
  destruct (Z.ltb_spec (count s) 0); [reflexivity|].
  rewrite ReadFull_zeros.
  destruct (Z.leb_spec (count s) (Z.of_nat (List.length payload)));
    destruct (Nat.leb_spec (Z.to_nat (count s)) (List.length payload));
    try lia; reflexivity.
Qed.

(** ** The Set after a successful read *)

(** After a [read] that returned [nil]: [Len] is not negative and there
    are exactly [Len] labels; [Len], [Rows] and [Cols] are [int32] values;
    the number of pixels is the [int32] product of the three, and it is
    [Len * Rows * Cols], as the test of the package expects it, whenever
    that product fits [int32]. *)
Theorem loaded_Set_invariant (s0 s : Set_) (images lbls : gzfile) :
  read s0 images lbls = (s, Return None) ->
  0 <= Len s <= Int32.max
  /\ Int32.in_range (Rows s) /\ Int32.in_range (Cols s)
  /\ len (labels s) = Len s
  /\ len (matrix s) = Int32.mul (Int32.mul (Len s) (Rows s)) (Cols s)
  /\ (Int32.in_range (Len s * Rows s * Cols s) ->
      len (matrix s) = Len s * Rows s * Cols s).
Proof.
  intros H.
  destruct (read_ok_shape _ _ _ _ H) as (m & l & Hm & Hl & Hc & Hr & Hk & Ll & Lm).
  unfold Len, Rows, Cols, len, Int32.in_range. rewrite Hm, Hl. cbn [bytes].
  rewrite mul32_3. repeat split; try lia.
  intros Hfit. rewrite Lm. now apply wrap32_id.
Qed.

Lemma loaded_Set_invariant_witness :
  let s := mkSet 2 1 1 (Some [x10; x20]) (Some [x05; x09]) in
  len (labels s) = 2 /\ len (matrix s) = 2 * 1 * 1.
Proof.
  intros s.
  destruct (loaded_Set_invariant zero_Set s
              (Gzip (image_stream (Quad x00 x00 x00 x02) (Quad x00 x00 x00 x01)
                       (Quad x00 x00 x00 x01) [x10; x20] EOF))
              (Gzip (label_stream (Quad x00 x00 x00 x02) [x05; x09] EOF)))
    as (_ & _ & _ & Hl & _ & Hm); [reflexivity|].
  split; [exact Hl|]. apply Hm. vm_compute. split; discriminate.
Defined.

(** [Index] is checked: on a Set left by a [read] that returned [nil] it
    panics, and returns nothing, for every index below 0 or from [Len]
    on. The labels have exactly [Len] entries, so indexing them fails
    whatever the pixels are. *)
Theorem Index_out_of_range (s0 s : Set_) (images lbls : gzfile) (i : Z) :
  read s0 images lbls = (s, Return None) ->
  i < 0 \/ Len s <= i ->
  exists p, Index s i = Panic p.
Proof.
  intros H Hi.
  destruct (read_ok_shape _ _ _ _ H) as (m & l & Hm & Hl & Hc & Hr & Hk & Ll & Lm).
  unfold Index.
  destruct (slice _ _ _) as [image|p]; [|exists p; reflexivity].
  exists IndexOutOfRange.
  unfold index, len, Len in *. rewrite Hl. cbn [bytes].
  replace (andb (0 <=? i) (i <? Z.of_nat (List.length l))) with false;
    [reflexivity|].
  symmetry. apply andb_false_iff.
  destruct Hi; [left; apply Z.leb_gt | right; apply Z.ltb_ge]; lia.
Qed.

Lemma Index_out_of_range_witness :
  exists p, Index (mkSet 2 1 1 (Some [x10; x20]) (Some [x05; x09])) 2 = Panic p.
Proof.
  apply (Index_out_of_range zero_Set _
           (Gzip (image_stream (Quad x00 x00 x00 x02) (Quad x00 x00 x00 x01)
                    (Quad x00 x00 x00 x01) [x10; x20] EOF))
           (Gzip (label_stream (Quad x00 x00 x00 x02) [x05; x09] EOF))).
  - reflexivity.
  - right. vm_compute. discriminate.
Defined.

(** ** A read does not depend on what the Set held *)

Lemma readImages_any_start (s s' : Set_) (file : gzfile) :
  snd (readImages s file) = snd (readImages s' file)
  /\ (snd (readImages s file) = Return None ->
      let a := fst (readImages s file) in
      let b := fst (readImages s' file) in
      count a = count b /\ rows a = rows b /\ cols a = cols b
      /\ matrix a = matrix b).
Proof.
  unfold readImages. destruct file as [e|e|z]; try (split; [reflexivity|discriminate]).
  destruct (Binary.Read z) as [z1 [e|magic]];
    try (split; [reflexivity|discriminate]).
  destruct (negb (magic =? xIMG)); try (split; [reflexivity|discriminate]).
  cbn [read_fields].
  destruct (Binary.Read z1) as [z2 [e|c]]; try (split; [reflexivity|discriminate]).
  destruct (Binary.Read z2) as [z3 [e|r]]; try (split; [reflexivity|discriminate]).
  destruct (Binary.Read z3) as [z4 [e|k]]; try (split; [reflexivity|discriminate]).
  cbn [store count rows cols matrix labels].
  destruct (_ <? 0); try (split; [reflexivity|discriminate]).
  destruct (Io.ReadFull _ _) as [[[? ?] ?] ?]. cbn. tauto.
Qed.

Lemma readLabels_any_labels (s s' : Set_) (file : gzfile) :
  count s = count s' -> rows s = rows s' -> cols s = cols s' ->
  matrix s = matrix s' ->
  snd (readLabels s file) = snd (readLabels s' file)
  /\ (snd (readLabels s file) = Return None ->
      fst (readLabels s file) = fst (readLabels s' file)).
Proof.
  intros Hc Hr Hk Hm. unfold readLabels. rewrite <- Hc, <- Hr, <- Hk, <- Hm.
  destruct file as [e|e|z]; try (split; [reflexivity|discriminate]).
  destruct (Binary.Read z) as [z1 [e|magic]];
    try (split; [reflexivity|discriminate]).
  destruct (negb (magic =? xLAB)); try (split; [reflexivity|discriminate]).
  destruct (Binary.Read z1) as [z2 [e|c]]; try (split; [reflexivity|discriminate]).
  destruct (negb (c =? count s)); try (split; [reflexivity|discriminate]).
  destruct (count s <? 0); try (split; [reflexivity|discriminate]).
  destruct (Io.ReadFull _ _) as [[[? ?] ?] ?]. cbn. tauto.
Qed.

(** Whether [read] returns [nil], an error or panics, and which, depends
    on the two files alone, not on what the Set held before; and when it
    returns [nil] the whole Set is determined by the two files: a
    successful [read] overwrites every field. *)
Theorem read_overwrites (s s' : Set_) (images lbls : gzfile) :
  snd (read s images lbls) = snd (read s' images lbls)
  /\ (snd (read s images lbls) = Return None ->
      fst (read s images lbls) = fst (read s' images lbls)).
Proof.
  destruct (readImages_any_start s s' images) as [Ho Hf].
  unfold read.
  destruct (readImages s images) as [s1 r1] eqn:E1.
  destruct (readImages s' images) as [s1' r1'] eqn:E1'.
  cbn [fst snd] in Ho, Hf. subst r1'.
  destruct r1 as [[e|]|p]; try (split; [reflexivity|discriminate]).
  destruct (Hf eq_refl) as (Hc & Hr & Hk & Hm).
  apply readLabels_any_labels; assumption.
Qed.

Lemma read_overwrites_witness :
  let images := Gzip (image_stream (Quad x00 x00 x00 x02) (Quad x00 x00 x00 x01)
                        (Quad x00 x00 x00 x01) [x10; x20] EOF) in
  let lbls := Gzip (label_stream (Quad x00 x00 x00 x02) [x05; x09] EOF) in
  fst (read zero_Set images lbls)
    = fst (read (mkSet 7 28 28 (Some [xff]) (Some [x01])) images lbls).
Proof.
  intros images lbls.
  apply (read_overwrites zero_Set (mkSet 7 28 28 (Some [xff]) (Some [x01]))
           images lbls).
  reflexivity.
Defined.

(** ** When a read succeeds *)

Lemma readImages_complete (s : Set_) (qm qc qr qk : quad)
    (payload : list byte) (e : error) :
  quad_int32 qm = xIMG ->
  let c := quad_int32 qc in
  let r := quad_int32 qr in
  let k := quad_int32 qk in
  let n := Int32.wrap (c * r * k) in
  0 <= n <= Z.of_nat (List.length payload) ->
  readImages s
    (Gzip (mkReader (quad_bytes qm ++ quad_bytes qc ++ quad_bytes qr
                       ++ quad_bytes qk ++ payload) e))
  = (mkSet c r k (Some (firstn (Z.to_nat n) payload)) (labels s), Return None).
Proof.
  intros Hm c r k n Hn. unfold readImages.
  rewrite Read_quad, Hm, Z.eqb_refl. cbn [negb read_fields].
  rewrite !Read_quad. cbn [store count rows cols matrix labels].
  rewrite mul32_3. fold c r k. fold n.
  destruct (Z.ltb_spec n 0); [lia|].
  rewrite ReadFull_zeros.
  destruct (Nat.leb_spec (Z.to_nat n) (List.length payload)); [reflexivity|lia].
Qed.

Lemma readLabels_complete (s : Set_) (qm qc : quad) (payload : list byte)
    (e : error) :
  quad_int32 qm = xLAB ->
  quad_int32 qc = count s ->
  0 <= count s <= Z.of_nat (List.length payload) ->
  readLabels s (Gzip (mkReader (quad_bytes qm ++ quad_bytes qc ++ payload) e))
  = (mkSet (count s) (rows s) (cols s) (matrix s)
       (Some (firstn (Z.to_nat (count s)) payload)), Return None).
Proof.
  intros Hm Hc Hn. unfold readLabels.
  rewrite Read_quad, Hm, Z.eqb_refl. cbn [negb].
  rewrite Read_quad, Hc, Z.eqb_refl. cbn [negb].
  destruct (Z.ltb_spec (count s) 0); [lia|].
  rewrite ReadFull_zeros.
  destruct (Nat.leb_spec (Z.to_nat (count s)) (List.length payload));
    [reflexivity|lia].
Qed.

(** [read] returns [nil] exactly when the image stream is the magic
    number of images, three more integers and at least as many bytes as
    their [int32] product, which must not be negative, and the label
    stream is the magic number of labels, the same count, not negative,
    and at least count bytes. The Set then holds the three integers, the
    first product-many pixel bytes and the first count label bytes, and
    nothing else of the two streams matters: not the bytes that follow,
    nor the way the streams end. *)
Theorem read_succeeds_iff (s s' : Set_) (zi zl : reader) :
  read s (Gzip zi) (Gzip zl) = (s', Return None) <->
  exists qm qc qr qk pix qm' qc' labs,
    avail zi = quad_bytes qm ++ quad_bytes qc ++ quad_bytes qr
                 ++ quad_bytes qk ++ pix
    /\ avail zl = quad_bytes qm' ++ quad_bytes qc' ++ labs
    /\ quad_int32 qm = xIMG /\ quad_int32 qm' = xLAB
    /\ quad_int32 qc' = quad_int32 qc
    /\ 0 <= quad_int32 qc <= Z.of_nat (List.length labs)
    /\ 0 <= Int32.wrap (quad_int32 qc * quad_int32 qr * quad_int32 qk)
         <= Z.of_nat (List.length pix)
    /\ s' = mkSet (quad_int32 qc) (quad_int32 qr) (quad_int32 qk)
              (Some (firstn
                 (Z.to_nat (Int32.wrap
                    (quad_int32 qc * quad_int32 qr * quad_int32 qk))) pix))
              (Some (firstn (Z.to_nat (quad_int32 qc)) labs)).
Proof.
  split.
  - intros H. apply read_ok_inv in H as (s1 & Hi & Hl).
    apply readImages_ok_inv in Hi
      as (z & qm & qc & qr & qk & pix & Hz & Ha & Hm & Hn & ->).
    injection Hz as <-.
    match type of Hl with readLabels ?s1 _ = _ =>
      destruct (readLabels_cases s1 (Gzip zl))
        as [[_ Hne]|(z' & qm' & qc' & labs & Hz' & Hal & Hm' & Hq & Hc & Hr)]
    end.
    { rewrite Hl in Hne. now elim Hne. }
    injection Hz' as <-. rewrite Hl in Hr.
    cbn [count rows cols matrix labels] in Hr, Hc, Hq.
    destruct (Z.leb_spec (quad_int32 qc) (Z.of_nat (List.length labs)));
      [|discriminate].
    injection Hr as ->.
    exists qm, qc, qr, qk, pix, qm', qc', labs. repeat split; auto; lia.
  - intros (qm & qc & qr & qk & pix & qm' & qc' & labs
            & Ha & Hal & Hm & Hm' & Hq & Hc & Hn & ->).
    destruct zi as [ai ei], zl as [al el]. cbn [avail] in Ha, Hal. subst ai al.
    unfold read. rewrite (readImages_complete s qm qc qr qk pix ei Hm Hn).
    rewrite readLabels_complete; cbn [count rows cols matrix labels]; auto.
Qed.

(** ** A header cut short *)

Lemma Read_short (z : reader) :
  (List.length (avail z) < 4)%nat ->
  Binary.Read z = (mkReader [] (fin z), inl (short_read (avail z) (fin z))).
Proof.
  intros H. unfold Binary.Read. rewrite ReadFull_short by exact H. reflexivity.
Qed.

Lemma quad_split (av : list byte) :
  (4 <= List.length av)%nat ->
  exists q rest, av = quad_bytes q ++ rest
                 /\ List.length av = (4 + List.length rest)%nat.
Proof.
  destruct av as [|b0 [|b1 [|b2 [|b3 rest]]]]; cbn; try lia.
  intros _. exists (Quad b0 b1 b2 b3), rest. auto.
Qed.

Lemma cut_error_short (av : list byte) (e : error) :
  (List.length av < 4)%nat -> short_read av e = cut_error av e.
Proof.
  intros H. unfold short_read, cut_error. now rewrite Nat.mod_small by exact H.
Qed.

Lemma cut_error_quad (q : quad) (rest : list byte) (e : error) :
  cut_error (quad_bytes q ++ rest) e = cut_error rest e.
Proof.
  unfold cut_error. destruct q. cbn [quad_bytes app List.length].
  replace (S (S (S (S (List.length rest))))) with (List.length rest + 1 * 4)%nat
    by lia.
  now rewrite Nat.Div0.mod_add.
Qed.

Lemma read_fields_short (fs : list field) : forall (av : list byte) (e : error)
    (s : Set_),
  (List.length av < 4 * List.length fs)%nat ->
  exists s' z',
    read_fields fs (mkReader av e) s = (s', z', Some (cut_error av e))
    /\ matrix s' = matrix s /\ labels s' = labels s.
Proof.
  induction fs as [|f fs IH]; intros av e s H; [cbn in H; lia|].
  cbn [read_fields].
  destruct (Nat.lt_ge_cases (List.length av) 4) as [Hs|Hs].
  - rewrite Read_short by exact Hs. cbn [avail fin].
    rewrite cut_error_short by exact Hs. eauto.
  - destruct (quad_split av Hs) as (q & rest & -> & Hl).
    rewrite Read_quad, cut_error_quad.
    destruct (IH rest e (store f (quad_int32 q) s)) as (s' & z' & Hr & Hm & Hb).
    { cbn [List.length] in H. lia. }
    exists s', z'. rewrite Hr. destruct f; auto.
Qed.

Lemma first_quad_short (av : list byte) :
  (List.length av < 4)%nat -> first_quad av = None.
Proof.
  destruct av as [|b0 [|b1 [|b2 [|b3 rest]]]]; cbn; try reflexivity. lia.
Qed.

Lemma first_quad_app (q : quad) (rest : list byte) :
  first_quad (quad_bytes q ++ rest) = Some q.
Proof. destruct q. reflexivity. Qed.

(** When the image stream ends before its 16-byte header does,
    [readImages] returns an error, never [nil] and never a panic, and
    does not touch the pixels and the labels of the Set. The error is the
    magic error exactly when the stream has four bytes and they are not
    the magic number of images; in every other case it is the error that
    ended the stream, with [io.ErrUnexpectedEOF] in place of [io.EOF]
    when the stream ends inside an integer. *)
Theorem readImages_header_cut (s : Set_) (av : list byte) (e : error) :
  (List.length av < 16)%nat ->
  let res := readImages s (Gzip (mkReader av e)) in
  matrix (fst res) = matrix s /\ labels (fst res) = labels s
  /\ snd res =
       Return (Some
         match first_quad av with
         | Some q =>
             if quad_int32 q =? xIMG then cut_error av e
             else Errorf ("invalid magic number for images: "
                            ++ Fmt.sprintf_x_int32 (quad_int32 q))
         | None => cut_error av e
         end).
Proof.
  intros H. cbv zeta. unfold readImages.
  destruct (Nat.lt_ge_cases (List.length av) 4) as [Hs|Hs].
  - rewrite Read_short by exact Hs. cbn [avail fin fst snd].
    rewrite cut_error_short, first_quad_short by exact Hs. auto.
  - destruct (quad_split av Hs) as (q & rest & -> & Hl).
    rewrite Read_quad, first_quad_app.
    destruct (Z.eqb_spec (quad_int32 q) xIMG) as [Hm|Hm]; cbn [negb].
    + destruct (read_fields_short [FCount; FRows; FCols] rest e s)
        as (s' & z' & Hr & Hx & Hb).
      { cbn [List.length]. lia. }
      rewrite Hr. cbn [fst snd]. rewrite cut_error_quad. auto.
    + cbn [fst snd]. auto.
Qed.

(** Cut inside the count, cut after the count, and a wrong magic number
    on a stream of five bytes. *)
Lemma readImages_header_cut_witness :
  snd (readImages zero_Set
         (Gzip (mkReader [x00; x00; x08; x03; x00; x00] EOF)))
    = Return (Some ErrUnexpectedEOF)
  /\ snd (readImages zero_Set
            (Gzip (mkReader [x00; x00; x08; x03; x00; x00; x00; x02] EOF)))
    = Return (Some EOF)
  /\ snd (readImages zero_Set
            (Gzip (mkReader [x00; x00; x08; x01; x00] EOF)))
    = Return (Some (Errorf "invalid magic number for images: 801")).
Proof.
  split; [|split].
  - exact (proj2 (proj2 (readImages_header_cut zero_Set
                           [x00; x00; x08; x03; x00; x00] EOF
                           ltac:(cbn; lia)))).
  - exact (proj2 (proj2 (readImages_header_cut zero_Set
                           [x00; x00; x08; x03; x00; x00; x00; x02] EOF
                           ltac:(cbn; lia)))).
  - exact (proj2 (proj2 (readImages_header_cut zero_Set
                           [x00; x00; x08; x01; x00] EOF
                           ltac:(cbn; lia)))).
Defined.

(** When the label stream ends before its 8-byte header does,
    [readLabels] returns an error and leaves the Set as it was. The error
    is the magic error exactly when the stream has four bytes and they
    are not the magic number of labels; in every other case it is the
    error that ended the stream, with [io.ErrUnexpectedEOF] in place of
    [io.EOF] when the stream ends inside an integer. *)
Theorem readLabels_header_cut (s : Set_) (av : list byte) (e : error) :
  (List.length av < 8)%nat ->
  let res := readLabels s (Gzip (mkReader av e)) in
  fst res = s
  /\ snd res =
       Return (Some
         match first_quad av with
         | Some q =>
             if quad_int32 q =? xLAB then cut_error av e
             else Errorf ("invalid magic number for labels: "
                            ++ Fmt.sprintf_x_int32 (quad_int32 q))
         | None => cut_error av e
         end).
Proof.
  intros H. cbv zeta. unfold readLabels.
  destruct (Nat.lt_ge_cases (List.length av) 4) as [Hs|Hs].
  - rewrite Read_short by exact Hs. cbn [avail fin fst snd].
    rewrite cut_error_short, first_quad_short by exact Hs. auto.
  - destruct (quad_split av Hs) as (q & rest & -> & Hl).
    rewrite Read_quad, first_quad_app.
    destruct (Z.eqb_spec (quad_int32 q) xLAB) as [Hm|Hm]; cbn [negb].
    + rewrite Read_short by (cbn [avail]; lia).
      cbn [avail fin fst snd].
      rewrite cut_error_quad, cut_error_short by lia. auto.
    + cbn [fst snd]. auto.
Qed.

(** An empty stream, a stream cut inside the count, and a wrong magic
    number on a stream of six bytes. *)
Lemma readLabels_header_cut_witness :
  snd (readLabels zero_Set (Gzip (mkReader [] EOF))) = Return (Some EOF)
  /\ snd (readLabels zero_Set
            (Gzip (mkReader [x00; x00; x08; x01; x00; x00; x00] EOF)))
    = Return (Some ErrUnexpectedEOF)
  /\ snd (readLabels zero_Set
            (Gzip (mkReader [x00; x00; x08; x03; x00; x00] EOF)))
    = Return (Some (Errorf "invalid magic number for labels: 803")).
Proof.
  split; [|split].
  - exact (proj2 (readLabels_header_cut zero_Set [] EOF ltac:(cbn; lia))).
  - exact (proj2 (readLabels_header_cut zero_Set
                    [x00; x00; x08; x01; x00; x00; x00] EOF ltac:(cbn; lia))).
  - exact (proj2 (readLabels_header_cut zero_Set
                    [x00; x00; x08; x03; x00; x00] EOF ltac:(cbn; lia))).
Defined.

(** ** The download and the next start *)

Lemma Copy_result (f : writer) (r : reader) (written : list byte) (n : Z)
    (err : option error) :
  Io.Copy f r = (written, n, err) ->
  n = Z.of_nat (List.length written)
  /\ (err = None -> written = avail r /\ is_EOF (fin r) = true).
Proof.
  unfold Io.Copy. destruct (room f) as [m|].
  - destruct (Nat.ltb_spec m (List.length (avail r))) as [Hlt|Hge].
    + intros E. injection E as <- <- <-. split; [|discriminate].
      rewrite length_firstn. lia.
    + destruct (is_EOF (fin r)); intros E; injection E as <- <- <-;
        (split; [reflexivity|]); [auto|discriminate].
  - destruct (is_EOF (fin r)); intros E; injection E as <- <- <-;
      (split; [reflexivity|]); [auto|discriminate].
Qed.

Lemma fetch_ok_inv (d : asset) (w : world) (data : list byte) :
  fetch d w = inr data ->
  exists res,
    cl_Get w = inr res
    /\ data = avail (body res)
    /\ is_EOF (fin (body res)) = true
    /\ Z.of_nat (List.length data) = length d.
Proof.
  unfold fetch. destruct (cl_Get w) as [e|res]; [discriminate|].
  destruct (os_Create w) as [e|f]; [discriminate|].
  destruct (Io.Copy f (body res)) as [[written n] err] eqn:Hc.
  destruct (Z.eqb_spec n (length d)) as [Hn|Hn]; [|discriminate].
  destruct err as [e|]; [discriminate|]. cbn [negb].
  intros H. injection H as <-.
  destruct (Copy_result _ _ _ _ _ Hc) as [Hl Hw].
  destruct (Hw eq_refl) as [-> He].
  exists res. repeat split; auto. lia.
Qed.



(** At the next start the file that a download left is met as a regular
    file holding the bytes written. The check never stops the process on
    it; it keeps the file exactly when the hex MD5 digest of those bytes
    is the expected hash, and any other content, though accepted when it
    was downloaded, is downloaded again. *)
Theorem downloaded_file_at_next_start (d : asset) (w w' : world)
    (data : list byte) :
  init_step d w = Downloaded data ->
  os_Open w' = inr (regular_file data) ->
  init_step d w' =
    if String.eqb (Fmt.sprintf_x_bytes (MD5.sum data)) (md5 d) then Kept
    else match fetch d w' with
         | inl h => Halted h
         | inr data' => Downloaded data'
         end.
Proof.
  intros H Ho. unfold init_step in H.
  destruct (check d (os_Open w)); try discriminate.
  destruct (fetch d w) as [h|data0] eqn:Hf; [discriminate|].
  injection H as ->.
  apply fetch_ok_inv in Hf as (res & _ & _ & _ & Hl).
  unfold init_step, check. rewrite Ho. unfold regular_file.
  cbn [stat content]. rewrite Hl, Z.eqb_refl, Copy_to_hash.
  cbn [avail fin is_EOF]. rewrite Hl, Z.eqb_refl. cbn [andb].
  destruct (String.eqb _ _); reflexivity.
Qed.

Lemma downloaded_file_at_next_start_witness :
  let d := mkAsset "" "" 3 "900150983cd24fb0d6963f7d28e17f72" in
  let net body := mkWorld (inl (LibErr "no such file or directory"))
                    (inr (mkResponse 200 (mkReader body EOF)))
                    (inr (mkWriter None EOF)) in
  let disk data := mkWorld (inr (regular_file data))
                     (inl (LibErr "connection refused"))
                     (inr (mkWriter None EOF)) in
  init_step d (disk [x61; x62; x63]) = Kept
  /\ init_step d (disk [x61; x62; x64])
       = Halted (FatalErr (LibErr "connection refused")).
Proof.
  intros d net disk. split.
  - rewrite (downloaded_file_at_next_start d (net [x61; x62; x63])
               (disk [x61; x62; x63]) [x61; x62; x63]);
      [vm_compute | vm_compute | ]; reflexivity.
  - rewrite (downloaded_file_at_next_start d (net [x61; x62; x64])
               (disk [x61; x62; x64]) [x61; x62; x64]);
      [vm_compute | vm_compute | ]; reflexivity.
Defined.

(** ** What the check asks of a descriptor *)

Lemma length_sprintf_x_bytes (l : list byte) :
  String.length (Fmt.sprintf_x_bytes l) = (2 * List.length l)%nat.
Proof.
  induction l as [|b l IH]; [reflexivity|].
  cbn [Fmt.sprintf_x_bytes String.length List.length]. rewrite IH. lia.
Qed.

Lemma length_MD5_sum (msg : list byte) : List.length (MD5.sum msg) = 16%nat.
Proof. reflexivity. Qed.

(** The check can keep a file only for a descriptor whose expected hash
    is written as 32 hexadecimal digits in lower case, and only a file of
    exactly the expected length: with a hash in upper case, or of another
    length, every start downloads the file again. *)
Theorem check_valid_needs (d : asset) (opened : error + rfile) :
  check d opened = Valid ->
  String.length (md5 d) = 32%nat
  /\ Fmt.to_lower (md5 d) = md5 d
  /\ exists f, opened = inr f /\ stat f = Some (length d)
               /\ Z.of_nat (List.length (avail (content f))) = length d.
Proof.
  unfold check. destruct opened as [e|f]; [discriminate|].
  destruct (stat f) as [size|] eqn:Hst; [|discriminate].
  destruct (Z.eqb_spec size (length d)) as [Hs|Hs]; [|discriminate].
  rewrite Copy_to_hash.
  destruct (is_EOF (fin (content f))); [|discriminate].
  destruct (Z.eqb_spec (Z.of_nat (List.length (avail (content f)))) (length d))
    as [Hn|Hn]; [|discriminate].
  cbn [andb].
  destruct (String.eqb_spec (Fmt.sprintf_x_bytes (MD5.sum (avail (content f))))
              (md5 d)) as [Hh|Hh]; [|discriminate].
  intros _. rewrite <- Hh. split; [|split].
  - rewrite length_sprintf_x_bytes, length_MD5_sum. reflexivity.
  - apply to_lower_sprintf_x_bytes.
  - exists f. subst size. auto.
Qed.

Lemma check_valid_needs_witness :
  String.length "900150983cd24fb0d6963f7d28e17f72" = 32%nat.
Proof.
  exact (proj1 (check_valid_needs
                  (mkAsset "" "" 3 "900150983cd24fb0d6963f7d28e17f72")
                  (inr (mkRfile (Some 3) (mkReader [x61; x62; x63] EOF)))
                  ltac:(vm_compute; reflexivity))).
Defined.

(** ** [init] as a whole *)

Lemma init_step_downloaded (d : asset) (w : world) (data : list byte) :
  init_step d w = Downloaded data ->
  check d (os_Open w) = Invalid /\ Z.of_nat (List.length data) = length d.
Proof.
  unfold init_step. destruct (check d (os_Open w)); try discriminate.
  destruct (fetch d w) as [h|data'] eqn:Hf; [discriminate|].
  intros H. injection H as ->.
  apply fetch_ok_inv in Hf as (res & _ & _ & _ & Hl). auto.
Qed.

Lemma init_loop_through (ws : nat -> world) (ds : list asset) :
  forall k, init_loop ws k ds = None ->
  forall j, (j < List.length ds)%nat ->
    forall h, init_step (nth j ds (mkAsset "" "" 0 "")) (ws (k + j)%nat)
                <> Halted h.
Proof.
  induction ds as [|d ds IH]; intros k H j Hj h; [cbn in Hj; lia|].
  cbn [init_loop] in H.
  destruct j as [|j].
  - rewrite Nat.add_0_r. cbn [nth].
    destruct (init_step d (ws k)); [discriminate|discriminate|discriminate].
  - cbn [nth]. replace (k + S j)%nat with (S k + j)%nat by lia.
    apply IH; [|cbn in Hj; lia].
    destruct (init_step d (ws k)); [exact H|exact H|discriminate].
Qed.

Lemma init_loop_first (ws : nat -> world) (ds : list asset) :
  forall k i h,
    (i < List.length ds)%nat ->
    (forall j h', (j < i)%nat ->
       init_step (nth j ds (mkAsset "" "" 0 "")) (ws (k + j)%nat) <> Halted h') ->
    init_step (nth i ds (mkAsset "" "" 0 "")) (ws (k + i)%nat) = Halted h ->
    init_loop ws k ds = Some h.
Proof.
  induction ds as [|d ds IH]; intros k i h Hi Hbefore Hat; [cbn in Hi; lia|].
  cbn [init_loop]. destruct i as [|i].
  - rewrite Nat.add_0_r in Hat. cbn [nth] in Hat. now rewrite Hat.
  - assert (H0 := Hbefore 0%nat). rewrite Nat.add_0_r in H0. cbn [nth] in H0.
    assert (Hrest : init_loop ws (S k) ds = Some h).
    { apply (IH (S k) i h); [cbn in Hi; lia| |].
      - intros j h' Hj. replace (S k + j)%nat with (k + S j)%nat by lia.
        apply (Hbefore (S j) h'). lia.
      - replace (S k + i)%nat with (k + S i)%nat by lia. exact Hat. }
    destruct (init_step d (ws k)) as [|data|h0];
      [exact Hrest | exact Hrest | elim (H0 h0 ltac:(lia)); reflexivity].
Qed.

(** When [init] returns, each of the four files of the table was kept by
    the cache check or was downloaded with exactly its expected length,
    [Train] was read from the first two and [Test] from the last two, and
    both Sets have [Len] labels and as many pixels as the [int32] product
    of [Len], [Rows] and [Cols]. *)
Theorem init_ready (env : environment) (train test : Set_) :
  init env = Ready train test ->
  caller_ok env = true
  /\ (forall i, (i < 4)%nat ->
        init_step (asset_at i) (worlds env i) = Kept
        \/ exists data,
             init_step (asset_at i) (worlds env i) = Downloaded data
             /\ Z.of_nat (List.length data) = length (asset_at i))
  /\ read zero_Set (local_gz env 0%nat) (local_gz env 1%nat)
       = (train, Return None)
  /\ read zero_Set (local_gz env 2%nat) (local_gz env 3%nat)
       = (test, Return None)
  /\ (forall s, s = train \/ s = test ->
        0 <= Len s /\ len (labels s) = Len s
        /\ len (matrix s) = Int32.mul (Int32.mul (Len s) (Rows s)) (Cols s)).
Proof.
  unfold init. destruct (caller_ok env); [|discriminate]. cbn [negb].
  destruct (init_loop (worlds env) 0 mnist) as [h|] eqn:Hloop; [discriminate|].
  destruct (read zero_Set (local_gz env 0%nat) (local_gz env 1%nat))
    as [tr [[e|]|p]] eqn:Etr; try discriminate.
  destruct (read zero_Set (local_gz env 2%nat) (local_gz env 3%nat))
    as [te [[e|]|p]] eqn:Ete; try discriminate.
  intros H. injection H as -> ->.
  split; [reflexivity|]. split; [|split; [reflexivity|split; [reflexivity|]]].
  - intros i Hi.
    pose proof (init_loop_through _ _ _ Hloop i Hi) as Hno. cbn [Nat.add] in Hno.
    fold (asset_at i) in Hno.
    destruct (init_step (asset_at i) (worlds env i)) as [|data|h] eqn:Es.
    + left. reflexivity.
    + right. exists data. split; [reflexivity|].
      apply (init_step_downloaded _ _ _ Es).
    + elim (Hno h). reflexivity.
  - intros s [-> | ->].
    + destruct (read_ok_shape _ _ _ _ Etr)
        as (m & l & Hm & Hl & Hc & _ & _ & Ll & Lm).
      unfold Len, Rows, Cols, len. rewrite Hm, Hl, mul32_3. cbn [bytes].
      repeat split; lia.
    + destruct (read_ok_shape _ _ _ _ Ete)
        as (m & l & Hm & Hl & Hc & _ & _ & Ll & Lm).
      unfold Len, Rows, Cols, len. rewrite Hm, Hl, mul32_3. cbn [bytes].
      repeat split; lia.
Qed.

(** [init] stops at the first iteration of the loop that stops: the
    later entries of the table are not looked at, no file is decoded, and
    [Train] and [Test] are still the zero Set. *)
Theorem init_stops_in_loop (env : environment) (i : nat) (h : halt) :
  caller_ok env = true ->
  (i < 4)%nat ->
  (forall j h', (j < i)%nat ->
     init_step (asset_at j) (worlds env j) <> Halted h') ->
  init_step (asset_at i) (worlds env i) = Halted h ->
  init env = Stopped h zero_Set zero_Set.
Proof.
  intros Hc Hi Hbefore Hat. unfold init. rewrite Hc. cbn [negb].
  rewrite (init_loop_first (worlds env) mnist 0 i h); [reflexivity|exact Hi| |].
  - intros j h' Hj. cbn [Nat.add]. apply Hbefore. exact Hj.
  - cbn [Nat.add]. exact Hat.
Qed.

Lemma init_step_download_world (d : asset) :
  0 <= length d ->
  init_step d (download_world d) = Downloaded (zeros (Z.to_nat (length d))).
Proof.
  intros H. unfold init_step, check, fetch, download_world, Io.Copy.
  cbn [os_Open cl_Get os_Create body room avail fin is_EOF].
  rewrite length_zeros, Z2Nat.id by exact H.
  rewrite Z.eqb_refl. reflexivity.
Qed.

Lemma init_loop_none_intro (ws : nat -> world) (ds : list asset) :
  forall k,
    (forall j, (j < List.length ds)%nat ->
       forall h, init_step (nth j ds (mkAsset "" "" 0 "")) (ws (k + j)%nat)
                   <> Halted h) ->
    init_loop ws k ds = None.
Proof.
  induction ds as [|d ds IH]; intros k H; [reflexivity|].
  cbn [init_loop].
  assert (H0 := H 0%nat ltac:(cbn; lia)). rewrite Nat.add_0_r in H0.
  cbn [nth] in H0.
  assert (Hrest : init_loop ws (S k) ds = None).
  { apply IH. intros j Hj h. replace (S k + j)%nat with (k + S j)%nat by lia.
    apply (H (S j)). cbn. lia. }
  destruct (init_step d (ws k)) as [|data|h];
    [exact Hrest | exact Hrest | elim (H0 h); reflexivity].
Qed.

(** A first start with nothing cached, every download of the right
    length, and the files of a small data set on the disk. *)
Lemma init_ready_witness :
  exists env train test,
    init env = Ready train test
    /\ len (labels train) = Len train /\ len (labels test) = Len test.
Proof.
  set (env := mkEnv true (fun i => download_world (asset_at i)) small_gz).
  set (train := mkSet 2 1 1 (Some [x10; x20]) (Some [x05; x09])).
  set (test := mkSet 1 1 1 (Some [x30]) (Some [x07])).
  assert (Hinit : init env = Ready train test).
  { unfold init. cbn [caller_ok negb env worlds local_gz].
    rewrite init_loop_none_intro; [reflexivity|].
    intros j Hj h. cbn [Nat.add]. fold (asset_at j).
    rewrite init_step_download_world; [discriminate|].
    do 4 (destruct j as [|j]; [cbv; discriminate|]).
    cbn in Hj. lia. }
  exists env, train, test. split; [exact Hinit|].
  destruct (init_ready env train test Hinit) as (_ & _ & _ & _ & Hs).
  split.
  - exact (proj1 (proj2 (Hs train (or_introl eq_refl)))).
  - exact (proj1 (proj2 (Hs test (or_intror eq_refl)))).
Defined.

(** Nothing is cached and the first download is refused: [init] stops
    there. *)
Lemma init_stops_in_loop_witness :
  init (mkEnv true
          (fun _ => mkWorld (inl (LibErr "no such file or directory"))
                      (inl (LibErr "connection refused"))
                      (inr (mkWriter None EOF)))
          small_gz)
    = Stopped (FatalErr (LibErr "connection refused")) zero_Set zero_Set.
Proof.
  apply (init_stops_in_loop _ 0%nat).
  - reflexivity.
  - lia.
  - intros j h' Hj. lia.
  - reflexivity.
Defined.

(** ** When a read panics *)

Lemma readImages_panic_inv (s s1 : Set_) (file : gzfile) (p : panic) :
  readImages s file = (s1, Panic p) ->
  p = MakesliceLen
  /\ exists z qm qc qr qk rest,
       file = Gzip z
       /\ avail z = quad_bytes qm ++ quad_bytes qc ++ quad_bytes qr
                      ++ quad_bytes qk ++ rest
       /\ quad_int32 qm = xIMG
       /\ Int32.wrap (quad_int32 qc * quad_int32 qr * quad_int32 qk) < 0.
Proof.
  unfold readImages. destruct file as [e|e|z]; try discriminate.
  destruct (Binary.Read z) as [z1 [e|magic]] eqn:E0; try discriminate.
  destruct (Z.eqb_spec magic xIMG) as [Hm|Hm]; try discriminate.
  cbn [negb read_fields].
  destruct (Binary.Read z1) as [z2 [e|c]] eqn:E1; try discriminate.
  destruct (Binary.Read z2) as [z3 [e|r]] eqn:E2; try discriminate.
  destruct (Binary.Read z3) as [z4 [e|k]] eqn:E3; try discriminate.
  cbn [store count rows cols matrix labels]. rewrite mul32_3.
  destruct (Z.ltb_spec (Int32.wrap (c * r * k)) 0) as [Hn|Hn].
  - intros H. injection H as _ <-. split; [reflexivity|].
    apply Read_ok_quad in E0 as (qm & A0 & _ & ->).
    apply Read_ok_quad in E1 as (qc & A1 & _ & ->).
    apply Read_ok_quad in E2 as (qr & A2 & _ & ->).
    apply Read_ok_quad in E3 as (qk & A3 & _ & ->).
    exists z, qm, qc, qr, qk, (avail z4).
    rewrite A0, A1, A2, A3. auto.
  - destruct (Io.ReadFull _ _) as [[[? ?] ?] ?]. discriminate.
Qed.

Lemma readLabels_panic_inv (s : Set_) (file : gzfile) (p : panic) :
  snd (readLabels s file) = Panic p -> p = MakesliceLen /\ count s < 0.
Proof.
  unfold readLabels. destruct file as [e|e|z]; try discriminate.
  destruct (Binary.Read z) as [z1 [e|magic]]; try discriminate.
  destruct (negb (magic =? xLAB)); try discriminate.
  destruct (Binary.Read z1) as [z2 [e|c]]; try discriminate.
  destruct (negb (c =? count s)); try discriminate.
  destruct (Z.ltb_spec (count s) 0) as [Hn|Hn].
  - cbn [snd]. intros H. injection H as <-. auto.
  - destruct (Io.ReadFull _ _) as [[[? ?] ?] ?]. discriminate.
Qed.

(** [read] panics only in an allocation, and only on an image stream
    whose header is complete and carries a negative count or a product of
    count, rows and cols that is negative in [int32]: a file that does
    not open, is not gzip, has a wrong magic number or is cut short gives
    an error, never a panic. *)
Theorem read_panics_only (s : Set_) (images lbls : gzfile) (p : panic) :
  snd (read s images lbls) = Panic p ->
  p = MakesliceLen
  /\ exists z qm qc qr qk rest,
       images = Gzip z
       /\ avail z = quad_bytes qm ++ quad_bytes qc ++ quad_bytes qr
                      ++ quad_bytes qk ++ rest
       /\ quad_int32 qm = xIMG
       /\ (Int32.wrap (quad_int32 qc * quad_int32 qr * quad_int32 qk) < 0
           \/ quad_int32 qc < 0).
Proof.
  unfold read. destruct (readImages s images) as [s1 [[e|]|p1]] eqn:E;
    cbn [snd]; try discriminate.
  - intros H. apply readLabels_panic_inv in H as [-> Hc].
    apply readImages_ok_inv in E
      as (z & qm & qc & qr & qk & pix & Hz & Ha & Hm & _ & ->).
    split; [reflexivity|]. exists z, qm, qc, qr, qk, pix.
    cbn [count] in Hc. auto 6.
  - intros H. injection H as ->.
    apply readImages_panic_inv in E
      as (-> & z & qm & qc & qr & qk & rest & Hz & Ha & Hm & Hn).
    split; [reflexivity|]. exists z, qm, qc, qr, qk, rest. auto 6.
Qed.

(** The image header count = -1, rows = -1, cols = 1 has the product 1:
    the pixels are read, and the allocation of -1 labels panics. *)
Lemma read_panics_only_witness :
  let images := Gzip (image_stream (Quad xff xff xff xff) (Quad xff xff xff xff)
                        (Quad x00 x00 x00 x01) [x10] EOF) in
  let lbls := Gzip (label_stream (Quad xff xff xff xff) [] EOF) in
  read zero_Set images lbls
    = (mkSet (-1) (-1) 1 (Some [x10]) None, Panic MakesliceLen).
Proof.
  intros images lbls.
  destruct (read_panics_only zero_Set images lbls MakesliceLen) as [_ _];
    reflexivity.
Defined.

(** Trailing bytes and a damaged end of both streams do not keep [read]
    from succeeding. *)
Lemma read_succeeds_iff_witness :
  read zero_Set
    (Gzip (image_stream (Quad x00 x00 x00 x01) (Quad x00 x00 x00 x02)
             (Quad x00 x00 x00 x01) [x10; x20; xff] (LibErr "gzip: invalid checksum")))
    (Gzip (label_stream (Quad x00 x00 x00 x01) [x07; xff] (LibErr "gzip: invalid checksum")))
  = (mkSet 1 2 1 (Some [x10; x20]) (Some [x07]), Return None).
Proof.
  apply (read_succeeds_iff zero_Set).
  exists (Quad x00 x00 x08 x03), (Quad x00 x00 x00 x01), (Quad x00 x00 x00 x02),
    (Quad x00 x00 x00 x01), [x10; x20; xff],
    (Quad x00 x00 x08 x01), (Quad x00 x00 x00 x01), [x07; xff].
  vm_compute. repeat split; discriminate.
Defined.
